(** * IR remote control converter (Arduino Uno): model and verification

    Shallow embedding of [ir_remote_control_converter.ino].

    - [unsigned long] (32 bits on the AVR) is a [Z] in [0, 2^32) with the
      wrap-around written out ([u32]); [byte] is a [Z] in [0, 256).
    - [irKeyCodes[NUMBER_OF_KEYS][2]] is the flat array the compiler lays
      out: entry [[i][r]] lives at index [2 * i + r] of a [list Z].
    - The EEPROM is a byte store indexed by address; the size of the device
      only matters to [eepromErase].  Addresses and loop counters ([byte],
      [int]) stay far below their bounds and are plain [nat].
    - The IR receiver is a finite script of poll results: every call of
      [irrecv.decode] consumes one entry, [Some d] for a decoded signal and
      [None] for "nothing received".  A blocking wait that exhausts the
      script yields [None] (the program is still waiting).
    - The IR transmitter and the receiver re-arming calls are recorded as a
      list of events.
    Serial output, the status led and the delays are not modelled. *)

From stdpp Require Import base tactics option list numbers functions.

Local Open Scope Z_scope.

(** ** Machine integers *)

(** Truncation to [unsigned long]. *)
Definition u32 (z : Z) : Z := z mod 2 ^ 32.

(** Truncation to [byte]. *)
Definition to_byte (z : Z) : Z := z mod 256.

(** [(unsigned long) -1], the value of the literal [-1] where the source
    compares it with or assigns it to an [unsigned long]. *)
Definition ULONG_MINUS_ONE : Z := 0xFFFFFFFF.

(** ** Constants of the sketch *)

Definition NUMBER_OF_KEYS : nat := 15.

Definition EEPROM_ID_VALUE : Z := 0x99.
Definition EEPROM_ID_ADDRESS : nat := 0.
Definition EEPROM_PHY_IR_TYPE_ADDRESS : nat := EEPROM_ID_ADDRESS + 1.
Definition EEPROM_EMU_IR_TYPE_ADDRESS : nat := EEPROM_PHY_IR_TYPE_ADDRESS + 1.
Definition EEPROM_DATA_ADDRESS : nat := EEPROM_EMU_IR_TYPE_ADDRESS + 1.

(** ** The key code table *)

(** Index of [irKeyCodes[i][r]] in the flat array. *)
Definition cell (i r : nat) : nat := (2 * i + r)%nat.

(** [irKeyCodesArray[i][r]] read. *)
Definition get_code (codes : list Z) (i r : nat) : Z := codes !!! cell i r.

(** [irKeyCodesArray[i][r] = v]. *)
Definition set_code (codes : list Z) (i r : nat) (v : Z) : list Z :=
  <[cell i r := v]> codes.

(** ** EEPROM *)

Abbreviation eeprom := (nat → Z).

(** [EEPROM.read(a)] *)
Definition EEPROM_read (a : nat) (e : eeprom) : Z := e a.

(** [EEPROM.write(a, v)] *)
Definition EEPROM_write (a : nat) (v : Z) (e : eeprom) : eeprom := <[a := v]> e.

Definition eepromReadByte (eepromAddress : nat) (e : eeprom) : Z :=
  EEPROM_read eepromAddress e.

Definition eepromWriteByte (valueToWrite : Z) (eepromAddress : nat) (e : eeprom) : eeprom :=
  EEPROM_write eepromAddress valueToWrite e.

Definition eepromWriteLong (valueToWrite : Z) (eepromAddress : nat) (e : eeprom) : eeprom :=
  let byte4 := Z.land valueToWrite 0xFF in
  let byte3 := Z.land (Z.shiftr valueToWrite 8) 0xFF in
  let byte2 := Z.land (Z.shiftr valueToWrite 16) 0xFF in
  let byte1 := Z.land (Z.shiftr valueToWrite 24) 0xFF in
  let e := EEPROM_write eepromAddress byte4 e in
  let e := EEPROM_write (eepromAddress + 1) byte3 e in
  let e := EEPROM_write (eepromAddress + 2) byte2 e in
  EEPROM_write (eepromAddress + 3) byte1 e.

Definition eepromReadLong (eepromAddress : nat) (e : eeprom) : Z :=
  let byte4 := EEPROM_read eepromAddress e in
  let byte3 := EEPROM_read (eepromAddress + 1) e in
  let byte2 := EEPROM_read (eepromAddress + 2) e in
  let byte1 := EEPROM_read (eepromAddress + 3) e in
  u32 (Z.land (u32 (Z.shiftl byte4 0)) 0xFF
       + Z.land (u32 (Z.shiftl byte3 8)) 0xFFFF
       + Z.land (u32 (Z.shiftl byte2 16)) 0xFFFFFF
       + Z.land (u32 (Z.shiftl byte1 24)) 0xFFFFFFFF).

(** The [for] loop of [eepromErase], counting down the cells left to clear:
    [erase_from i k] clears addresses [i .. i + k - 1]. *)
Fixpoint erase_from (i k : nat) (e : eeprom) : eeprom :=
  match k with
  | O => e
  | S k' => erase_from (S i) k' (EEPROM_write i 0 e)
  end.

(** The [for] loop of [eepromSetData]; [k] is [numberOfValues - i]. *)
Fixpoint set_data_from (eepromDataAddress : nat) (longValuesArray : list Z)
    (i k : nat) (e : eeprom) : eeprom :=
  match k with
  | O => e
  | S k' =>
      let e := eepromWriteLong (get_code longValuesArray i 0)
                 (eepromDataAddress + 8 * i) e in
      let e := eepromWriteLong (get_code longValuesArray i 1)
                 (eepromDataAddress + 8 * i + 4) e in
      set_data_from eepromDataAddress longValuesArray (S i) k' e
  end.

(** [eepromDataAddress] is a [byte] and the cell addresses are computed in
    [int]: this is the function of the source for
    [eepromDataAddress < 256] and [eepromDataAddress + 8 * numberOfValues]
    up to 32768; the sketch calls it with 3 and 15. *)
Definition eepromSetData (eepromDataAddress : nat) (longValuesArray : list Z)
    (numberOfValues : nat) (e : eeprom) : eeprom :=
  set_data_from eepromDataAddress longValuesArray 0 numberOfValues e.

(** The [for] loop of [eepromGetData]; [k] is [numberOfValues - i]. *)
Fixpoint get_data_from (eepromDataAddress : nat) (longValuesArray : list Z)
    (i k : nat) (e : eeprom) : list Z :=
  match k with
  | O => longValuesArray
  | S k' =>
      let a := set_code longValuesArray i 0
                 (eepromReadLong (eepromDataAddress + 8 * i) e) in
      let a := set_code a i 1
                 (eepromReadLong (eepromDataAddress + 8 * i + 4) e) in
      get_data_from eepromDataAddress a (S i) k' e
  end.

(** As for [eepromSetData], [eepromDataAddress] is a [byte] and the
    addresses are [int]s: the function of the source for
    [eepromDataAddress < 256] and [eepromDataAddress + 8 * numberOfValues]
    up to 32768. *)
Definition eepromGetData (eepromDataAddress : nat) (longValuesArray : list Z)
    (numberOfValues : nat) (e : eeprom) : list Z :=
  get_data_from eepromDataAddress longValuesArray 0 numberOfValues e.

(** Byte [k] of [v], counting from the least significant one. *)
Definition byte_of (v : Z) (k : nat) : Z := (v / 2 ^ (8 * Z.of_nat k)) mod 256.

(** An [unsigned long] value. *)
Definition is_u32 (v : Z) : Prop := 0 ≤ v < 2 ^ 32.

(** ** IR receiver and transmitter *)

(** The two fields of [decode_results] the sketch reads. *)
Record decode_results := { decode_type : Z; value : Z }.

(** One entry per call of [irrecv.decode]. *)
Abbreviation ir_input := (list (option decode_results)).

Inductive ir_event :=
| SendJVC (data : Z) (nbits : Z) (repeat : Z)
| SendSAMSUNG (data : Z) (nbits : Z)
| EnableIRIn
| Resume.

(** ** Learning *)

(** [while (irrecv.decode(&decodedSignal)) irrecv.resume();] *)
Fixpoint flush (input : ir_input) : option ir_input :=
  match input with
  | [] => None
  | Some _ :: rest => flush rest
  | None :: rest => Some rest
  end.

(** Local variables of [learnIRKeyCodes] together with the array it fills. *)
Record learn_state := {
  l_i : nat;
  l_remoteType : Z;
  l_previousValue : Z;
  l_codes : list Z
}.

(** One pass through the body of the inner [while (true)]: a poll of the
    receiver, and the acceptance of the decoded value when it passes the
    filter. *)
Definition learn_poll (dataSetRow : nat) (st : learn_state)
    (p : option decode_results) : learn_state :=
  match p with
  | None => st
  | Some d =>
      if bool_decide (value d ≠ ULONG_MINUS_ONE)
         && bool_decide (value d ≠ l_previousValue st)
      then {| l_i := S (l_i st);
              l_remoteType := if bool_decide (l_i st = 0%nat) then decode_type d
                              else l_remoteType st;
              l_previousValue := value d;
              l_codes := set_code (l_codes st) (l_i st) dataSetRow (value d) |}
      else st
  end.

(** The nested loops [while (i < numberOfKeys) { while (true) { ... } }]:
    the inner loop is left exactly when a value is accepted, so each poll is
    followed by the outer test. *)
Fixpoint learn_loop (numberOfKeys dataSetRow : nat) (st : learn_state)
    (input : ir_input) {struct input} : option (learn_state * ir_input) :=
  if bool_decide (l_i st < numberOfKeys)%nat then
    match input with
    | [] => None
    | p :: rest => learn_loop numberOfKeys dataSetRow (learn_poll dataSetRow st p) rest
    end
  else Some (st, input).

Definition learn_init (irKeyCodesArray : list Z) : learn_state :=
  {| l_i := 0; l_remoteType := -1; l_previousValue := ULONG_MINUS_ONE;
     l_codes := irKeyCodesArray |}.

(** Returns the [byte] result, the array as the call leaves it and the
    unread rest of the receiver script. *)
Definition learnIRKeyCodes (irKeyCodesArray : list Z)
    (numberOfKeys dataSetRow : nat) (input : ir_input)
    : option (Z * list Z * ir_input) :=
  input ← flush input;
  '(st, rest) ← learn_loop numberOfKeys dataSetRow (learn_init irKeyCodesArray) input;
  Some (to_byte (l_remoteType st + 1), l_codes st, rest).

(** States of a session on [numberOfKeys] slots for column [dataSetRow]:
    the initial one, and those a poll leads to while the session is still
    waiting for a key. *)
Inductive learn_reach (numberOfKeys dataSetRow : nat) (irKeyCodesArray : list Z)
    : learn_state → Prop :=
| reach_init : learn_reach numberOfKeys dataSetRow irKeyCodesArray (learn_init irKeyCodesArray)
| reach_poll st p :
    learn_reach numberOfKeys dataSetRow irKeyCodesArray st →
    (l_i st < numberOfKeys)%nat →
    learn_reach numberOfKeys dataSetRow irKeyCodesArray (learn_poll dataSetRow st p).

(** A poll that cannot fill the first slot of a session: nothing received,
    or the value [0xFFFFFFFF]. *)
Definition no_key (p : option decode_results) : Prop :=
  ∀ d, p = Some d → value d = ULONG_MINUS_ONE.

(** Key presses a session accepts one after the other when its filter holds
    [prev]: none is [0xFFFFFFFF] and none repeats the value before it. *)
Fixpoint fresh_keys (prev : Z) (ds : list decode_results) : Prop :=
  match ds with
  | [] => True
  | d :: ds' => value d ≠ ULONG_MINUS_ONE ∧ value d ≠ prev ∧ fresh_keys (value d) ds'
  end.

(** Global variables of the sketch. *)
Record globals := {
  irKeyCodes : list Z;
  eepromIdValue : Z;
  phyIrType : Z;
  emuIrType : Z;
  setupMode : bool
}.

(** The table scan of [loop]: [while (i < NUMBER_OF_KEYS)] with the [break]
    on the first row whose physical code equals [rcvValue]; [k] is the
    number of rows left. *)
Fixpoint lookup_from (codes : list Z) (rcvValue : Z) (i k : nat) : option nat :=
  match k with
  | O => None
  | S k' =>
      if bool_decide (get_code codes i 0 = rcvValue) then Some i
      else lookup_from codes rcvValue (S i) k'
  end.

Definition lookup (codes : list Z) (numberOfKeys : nat) (rcvValue : Z) : option nat :=
  lookup_from codes rcvValue 0 numberOfKeys.

Section Converter.

(** Enumerators of [decode_type_t] in IRremote.h (Arduino-IRremote). *)
Variables JVC SAMSUNG : Z.

(** [EEPROM.length()] *)
Variable EEPROM_length : nat.

Definition eepromErase (e : eeprom) : eeprom := erase_from 0 EEPROM_length e.

(** [switch (emuIrType - 1)]: the label [default:] stands directly before
    [case JVC:], with only a comment between them. *)
Definition send (tag : Z) (data : Z) : list ir_event :=
  if bool_decide (tag = JVC) then [SendJVC data 16 0]
  else if bool_decide (tag = SAMSUNG) then [SendSAMSUNG data 32]
  else (* default: *) [SendJVC data 16 0].

(** [loop], from [if (irrecv.decode(&decodedSignal))] to the end. *)
Definition dispatch (st : globals) (p : option decode_results) : list ir_event :=
  let rcvValue := match p with Some d => value d | None => 0 end in
  if bool_decide (rcvValue > 0) then
    match lookup (irKeyCodes st) NUMBER_OF_KEYS rcvValue with
    | Some i => send (emuIrType st - 1) (get_code (irKeyCodes st) i 1) ++ [EnableIRIn]
    | None => []
    end ++ [Resume]
  else [].

(** [loop], the branch [if (setupMode == true)]. *)
Definition loop_setup (st : globals) (e : eeprom) (input : ir_input)
    : option (globals * eeprom * ir_input) :=
  let e := eepromErase e in
  let e := eepromWriteByte EEPROM_ID_VALUE EEPROM_ID_ADDRESS e in
  let id := eepromReadByte EEPROM_ID_ADDRESS e in
  '(phy, codes, input) ← learnIRKeyCodes (irKeyCodes st) NUMBER_OF_KEYS 0 input;
  let e := eepromWriteByte phy EEPROM_PHY_IR_TYPE_ADDRESS e in
  '(emu, codes, input) ← learnIRKeyCodes codes NUMBER_OF_KEYS 1 input;
  let e := eepromWriteByte emu EEPROM_EMU_IR_TYPE_ADDRESS e in
  let e := eepromSetData EEPROM_DATA_ADDRESS codes NUMBER_OF_KEYS e in
  Some ({| irKeyCodes := codes; eepromIdValue := id; phyIrType := phy;
           emuIrType := emu; setupMode := false |}, e, input).

(** One call of [loop]: the state and EEPROM it leaves, what it sent, and
    the unread rest of the receiver script. *)
Definition loop (st : globals) (e : eeprom) (input : ir_input)
    : option (globals * eeprom * list ir_event * ir_input) :=
  '(st, e, input) ← (if setupMode st then loop_setup st e input
                     else Some (st, e, input));
  match input with
  | [] => None
  | p :: input => Some (st, e, dispatch st p, input)
  end.

End Converter.

(** Values of the globals when [setup] starts. *)
Definition globals_init : globals :=
  {| irKeyCodes := replicate (2 * NUMBER_OF_KEYS) 0; eepromIdValue := 0;
     phyIrType := 0; emuIrType := 0; setupMode := false |}.

(** [setup], from the EEPROM id check on. *)
Definition setup (st : globals) (e : eeprom) : globals :=
  let eepromIdValue := eepromReadByte EEPROM_ID_ADDRESS e in
  if bool_decide (eepromIdValue = EEPROM_ID_VALUE) then
    let phyIrType := eepromReadByte EEPROM_PHY_IR_TYPE_ADDRESS e in
    let emuIrType := eepromReadByte EEPROM_EMU_IR_TYPE_ADDRESS e in
    {| irKeyCodes := eepromGetData EEPROM_DATA_ADDRESS (irKeyCodes st) NUMBER_OF_KEYS e;
       eepromIdValue := eepromIdValue; phyIrType := phyIrType;
       emuIrType := emuIrType; setupMode := setupMode st |}
  else
    {| irKeyCodes := irKeyCodes st; eepromIdValue := eepromIdValue;
       phyIrType := phyIrType st; emuIrType := emuIrType st; setupMode := true |}.

(** The interrupt handler [setupModeOn]. *)
Definition setupModeOn (st : globals) : globals :=
  {| irKeyCodes := irKeyCodes st; eepromIdValue := eepromIdValue st;
     phyIrType := phyIrType st; emuIrType := emuIrType st; setupMode := true |}.

(** The cells [a .. a + k - 1] of the EEPROM hold bytes. *)
Definition holds_bytes (a k : nat) (e : eeprom) : Prop :=
  ∀ b, (a ≤ b < a + k)%nat → 0 ≤ e b < 256.

(** Every signal of a receiver script carries an [unsigned long]. *)
Definition u32_script (input : ir_input) : Prop :=
  Forall (λ p, ∀ d, p = Some d → is_u32 (value d)) input.

(** The physical codes of the first [n] rows are pairwise different. *)
Definition distinct_physical (codes : list Z) (n : nat) : Prop :=
  ∀ i j, (i < n)%nat → (j < n)%nat → get_code codes i 0 = get_code codes j 0 → i = j.

#[global] Instance is_u32_dec v : Decision (is_u32 v).
Proof. unfold is_u32. apply _. Defined.

(** ** Sample data *)

(** Enumerators [JVC] and [SAMSUNG] of [decode_type_t] as IRremote.h of
    Arduino-IRremote numbers them, and the EEPROM size of the Uno. *)
Definition sample_JVC : Z := 6.
Definition sample_SAMSUNG : Z := 7.
Definition sample_EEPROM_length : nat := 1024.

(** Fifteen key presses of one remote: protocol [ty], codes [base],
    [base + 1], ... *)
Definition sample_keys (ty base : Z) : ir_input :=
  map (λ k : nat, Some {| decode_type := ty; value := base + Z.of_nat k |})
      (seq 0 NUMBER_OF_KEYS).

(** A whole setup run: empty buffer, the keys of an NEC remote (tag 3),
    empty buffer, the keys of a Samsung remote (tag 7), and then the first
    key of the NEC remote again. *)
Definition sample_script : ir_input :=
  None :: sample_keys 3 0xFFA25D ++ None :: sample_keys 7 0xE0E040BF
    ++ [Some {| decode_type := 3; value := 0xFFA25D |}].

(** What [sample_script] leaves to read after the first session. *)
Definition sample_script_emulated : ir_input :=
  None :: sample_keys 7 0xE0E040BF ++ [Some {| decode_type := 3; value := 0xFFA25D |}].

(** The table after the first and after the second session of that run. *)
Definition sample_physical : list Z :=
  concat (map (λ k : nat, [0xFFA25D + Z.of_nat k; 0]) (seq 0 NUMBER_OF_KEYS)).

Definition sample_learned : list Z :=
  concat (map (λ k : nat, [0xFFA25D + Z.of_nat k; 0xE0E040BF + Z.of_nat k])
            (seq 0 NUMBER_OF_KEYS)).

(** Globals and EEPROM after that run, started on an EEPROM of 0xFF bytes. *)
Definition sample_learned_globals : globals :=
  {| irKeyCodes := sample_learned; eepromIdValue := EEPROM_ID_VALUE;
     phyIrType := 4; emuIrType := 8; setupMode := false |}.

Definition sample_learned_eeprom : eeprom :=
  eepromSetData EEPROM_DATA_ADDRESS sample_learned NUMBER_OF_KEYS
    (eepromWriteByte 8 EEPROM_EMU_IR_TYPE_ADDRESS
       (eepromWriteByte 4 EEPROM_PHY_IR_TYPE_ADDRESS
          (eepromWriteByte EEPROM_ID_VALUE EEPROM_ID_ADDRESS
             (eepromErase sample_EEPROM_length (λ _, 0xFF))))).

(** The key presses of the two remotes of [sample_script]. *)
Definition sample_ps : list decode_results :=
  map (λ k : nat, {| decode_type := 3; value := 0xFFA25D + Z.of_nat k |})
      (seq 0 NUMBER_OF_KEYS).

Definition sample_es : list decode_results :=
  map (λ k : nat, {| decode_type := 7; value := 0xE0E040BF + Z.of_nat k |})
      (seq 0 NUMBER_OF_KEYS).

(** A table whose first row maps 0x10 to 0x20, all other rows zero. *)
Definition sample_table : list Z := [0x10; 0x20] ++ replicate 28 0.

Definition sample_globals (emu : Z) : globals :=
  {| irKeyCodes := sample_table; eepromIdValue := EEPROM_ID_VALUE;
     phyIrType := 4; emuIrType := emu; setupMode := false |}.

Definition sample_A : decode_results := {| decode_type := 3; value := 0x10 |}.
Definition sample_B : decode_results := {| decode_type := 3; value := 0x30 |}.

(** A table with both boundary values of an [unsigned long]. *)
Definition sample_codes : list Z :=
  [0; 0xFFFFFFFF; 0xFFFFFFFF; 0] ++ replicate 26 0x12345678.

(** * Properties *)

(** ** Bytes of an [unsigned long] *)

Lemma land_ones_8 x : Z.land x 0xFF = x mod 2 ^ 8.
Proof. change 0xFF with (Z.ones 8). by rewrite Z.land_ones. Qed.

Lemma land_ones_16 x : Z.land x 0xFFFF = x mod 2 ^ 16.
Proof. change 0xFFFF with (Z.ones 16). by rewrite Z.land_ones. Qed.

Lemma land_ones_24 x : Z.land x 0xFFFFFF = x mod 2 ^ 24.
Proof. change 0xFFFFFF with (Z.ones 24). by rewrite Z.land_ones. Qed.

Lemma land_ones_32 x : Z.land x 0xFFFFFFFF = x mod 2 ^ 32.
Proof. change 0xFFFFFFFF with (Z.ones 32). by rewrite Z.land_ones. Qed.

Lemma byte_of_range v k : 0 ≤ byte_of v k < 256.
Proof. unfold byte_of. apply Z.mod_pos_bound. lia. Qed.

Lemma byte_of_0 v : Z.land v 0xFF = byte_of v 0.
Proof. unfold byte_of. rewrite land_ones_8. simpl. by rewrite Z.div_1_r. Qed.

Lemma byte_of_shiftr v (k : nat) :
  Z.land (Z.shiftr v (8 * Z.of_nat k)) 0xFF = byte_of v k.
Proof. unfold byte_of. rewrite land_ones_8, Z.shiftr_div_pow2 by lia. done. Qed.

(** The sum computed by [eepromReadLong] on four bytes. *)
Lemma assemble_bytes b4 b3 b2 b1 :
  0 ≤ b4 < 256 → 0 ≤ b3 < 256 → 0 ≤ b2 < 256 → 0 ≤ b1 < 256 →
  u32 (Z.land (u32 (Z.shiftl b4 0)) 0xFF
       + Z.land (u32 (Z.shiftl b3 8)) 0xFFFF
       + Z.land (u32 (Z.shiftl b2 16)) 0xFFFFFF
       + Z.land (u32 (Z.shiftl b1 24)) 0xFFFFFFFF)
  = b4 + 2 ^ 8 * b3 + 2 ^ 16 * b2 + 2 ^ 24 * b1.
Proof.
  intros ????. unfold u32.
  rewrite land_ones_8, land_ones_16, land_ones_24, land_ones_32.
  rewrite !Z.shiftl_mul_pow2 by lia.
  change (2 ^ 0) with 1. change (2 ^ 8) with 256. change (2 ^ 16) with 65536.
  change (2 ^ 24) with 16777216. change (2 ^ 32) with 4294967296.
  rewrite (Z.mod_small (b4 * 1) 4294967296), (Z.mod_small (b3 * 256) 4294967296),
    (Z.mod_small (b2 * 65536) 4294967296), (Z.mod_small (b1 * 16777216) 4294967296) by lia.
  rewrite (Z.mod_small (b4 * 1)), (Z.mod_small (b3 * 256)), (Z.mod_small (b2 * _)),
    (Z.mod_small (b1 * _)) by lia.
  rewrite Z.mod_small by lia. lia.
Qed.

Lemma split_bytes v :
  is_u32 v →
  byte_of v 0 + 2 ^ 8 * byte_of v 1 + 2 ^ 16 * byte_of v 2 + 2 ^ 24 * byte_of v 3 = v.
Proof.
  unfold is_u32, byte_of. intros Hv. simpl Z.of_nat. simpl Z.mul.
  change (2 ^ 0) with 1. change (2 ^ 8) with 256. change (2 ^ 16) with 65536.
  change (2 ^ 24) with 16777216. change (2 ^ 32) with 4294967296 in Hv.
  Z.div_mod_to_equations. lia.
Qed.

(** ** [eepromWriteLong] and [eepromReadLong] *)

Lemma EEPROM_read_write a v e : EEPROM_read a (EEPROM_write a v e) = v.
Proof. unfold EEPROM_read, EEPROM_write. apply fn_lookup_insert. Qed.

Lemma EEPROM_write_ne a b v (e : eeprom) : a ≠ b → EEPROM_write a v e b = e b.
Proof. unfold EEPROM_write. apply fn_lookup_insert_ne. Qed.

Lemma EEPROM_write_eq a v (e : eeprom) : EEPROM_write a v e a = v.
Proof. unfold EEPROM_write. apply fn_lookup_insert. Qed.

Lemma eepromWriteLong_other v a (e : eeprom) b :
  (b < a ∨ a + 4 ≤ b)%nat → eepromWriteLong v a e b = e b.
Proof.
  intros Hb. unfold eepromWriteLong. cbv zeta.
  rewrite !EEPROM_write_ne by lia. done.
Qed.

Lemma eepromWriteLong_byte v a (e : eeprom) k :
  (k < 4)%nat → eepromWriteLong v a e (a + k)%nat = byte_of v k.
Proof.
  intros Hk. unfold eepromWriteLong. cbv zeta.
  destruct k as [|[|[|[|k]]]]; [| | | |lia].
  - replace (a + 0)%nat with a by lia.
    rewrite !EEPROM_write_ne, EEPROM_write_eq by lia. apply byte_of_0.
  - rewrite !EEPROM_write_ne, EEPROM_write_eq by lia. apply (byte_of_shiftr v 1).
  - rewrite !EEPROM_write_ne, EEPROM_write_eq by lia. apply (byte_of_shiftr v 2).
  - rewrite EEPROM_write_eq. apply (byte_of_shiftr v 3).
Qed.

(** [eepromReadLong] rebuilds a value from its four bytes, lowest address
    holding the least significant byte. *)
Lemma eepromReadLong_bytes v a (e : eeprom) :
  is_u32 v → (∀ k, (k < 4)%nat → e (a + k)%nat = byte_of v k) →
  eepromReadLong a e = v.
Proof.
  intros Hv He. unfold eepromReadLong, EEPROM_read. cbv zeta.
  replace (e a) with (e (a + 0)%nat) by (f_equal; lia).
  rewrite !He by lia.
  rewrite assemble_bytes by apply byte_of_range.
  by apply split_bytes.
Qed.

Lemma eepromReadLong_WriteLong v a (e : eeprom) :
  is_u32 v → eepromReadLong a (eepromWriteLong v a e) = v.
Proof.
  intros Hv. apply eepromReadLong_bytes; [done|].
  intros k Hk. by apply eepromWriteLong_byte.
Qed.

(** ** [eepromSetData] and [eepromGetData] *)

Lemma set_data_from_other base codes i k (e : eeprom) b :
  (b < base + 8 * i ∨ base + 8 * (i + k) ≤ b)%nat →
  set_data_from base codes i k e b = e b.
Proof.
  revert i e. induction k as [|k IH]; intros i e Hb; cbn [set_data_from]; [done|].
  cbv zeta.
  rewrite IH by lia. rewrite !eepromWriteLong_other by lia. done.
Qed.

Lemma set_data_from_byte base codes i k (e : eeprom) j r kk :
  (i ≤ j < i + k)%nat → (r < 2)%nat → (kk < 4)%nat →
  set_data_from base codes i k e (base + 8 * j + 4 * r + kk)%nat
  = byte_of (get_code codes j r) kk.
Proof.
  revert i e. induction k as [|k IH]; intros i e Hj Hr Hkk; cbn [set_data_from]; [lia|].
  cbv zeta.
  destruct (decide (j = i)) as [->|Hne]; [|apply IH; lia].
  rewrite set_data_from_other by lia.
  destruct r as [|[|r]]; [| |lia].
  - rewrite eepromWriteLong_other by lia.
    replace (base + 8 * i + 4 * 0 + kk)%nat with (base + 8 * i + kk)%nat by lia.
    by apply eepromWriteLong_byte.
  - replace (base + 8 * i + 4 * 1 + kk)%nat with (base + 8 * i + 4 + kk)%nat by lia.
    by apply eepromWriteLong_byte.
Qed.

Lemma eepromReadLong_SetData base codes n (e : eeprom) j r :
  (j < n)%nat → (r < 2)%nat → is_u32 (get_code codes j r) →
  eepromReadLong (base + 8 * j + 4 * r) (eepromSetData base codes n e)
  = get_code codes j r.
Proof.
  intros Hj Hr Hv. apply eepromReadLong_bytes; [done|].
  intros kk Hkk. unfold eepromSetData. apply set_data_from_byte; lia.
Qed.

Lemma length_set_code codes i r v : length (set_code codes i r v) = length codes.
Proof. apply length_insert. Qed.

Lemma length_get_data_from base a i k (e : eeprom) :
  length (get_data_from base a i k e) = length a.
Proof.
  revert a i. induction k as [|k IH]; intros a i; cbn [get_data_from]; [done|].
  cbv zeta.
  by rewrite IH, !length_set_code.
Qed.

Lemma get_data_from_lookup base a i k (e : eeprom) j r :
  (cell (i + k) 0 ≤ length a)%nat → (r < 2)%nat →
  get_data_from base a i k e !! cell j r
  = if bool_decide (i ≤ j < i + k)%nat
    then Some (eepromReadLong (base + 8 * j + 4 * r) e)
    else a !! cell j r.
Proof.
  revert a i. induction k as [|k IH]; intros a i Hlen Hr; cbn [get_data_from].
  { rewrite bool_decide_eq_false_2 by lia. done. }
  cbv zeta.
  rewrite IH by (rewrite ?length_set_code; unfold cell in *; lia).
  destruct (decide (j = i)) as [->|Hne].
  - rewrite bool_decide_eq_false_2, bool_decide_eq_true_2 by lia.
    unfold set_code, cell in *. destruct r as [|[|r]]; [| |lia].
    + rewrite list_lookup_insert_ne, list_lookup_insert_eq by lia.
      do 2 f_equal. lia.
    + rewrite list_lookup_insert_eq by (rewrite length_insert; lia). done.
  - unfold set_code, cell in *. rewrite !list_lookup_insert_ne by lia.
    destruct (decide (i ≤ j < i + S k)%nat).
    + rewrite !bool_decide_eq_true_2 by lia. done.
    + rewrite !bool_decide_eq_false_2 by lia. done.
Qed.

(** Every index of the flat array is a cell [[j][r]]. *)
Lemma cell_div_mod idx : idx = cell (idx `div` 2) (idx `mod` 2).
Proof. unfold cell. apply Nat.div_mod_eq. Qed.

Lemma get_code_lookup (codes : list Z) j r v :
  codes !! cell j r = Some v → get_code codes j r = v.
Proof. intros H. unfold get_code. by apply list_lookup_total_correct. Qed.

Lemma eepromGetData_SetData base codes scratch n (e : eeprom) :
  length codes = (2 * n)%nat → length scratch = (2 * n)%nat →
  Forall is_u32 codes →
  eepromGetData base scratch n (eepromSetData base codes n e) = codes.
Proof.
  intros Hc Hs Hall. apply list_eq. intros idx.
  destruct (decide (idx < 2 * n)%nat) as [Hlt|Hge].
  - rewrite (cell_div_mod idx).
    assert (idx `mod` 2 < 2)%nat as Hr by (apply Nat.mod_upper_bound; lia).
    assert (idx `div` 2 < n)%nat as Hj by (apply Nat.Div0.div_lt_upper_bound; lia).
    unfold eepromGetData. rewrite get_data_from_lookup by (unfold cell; lia).
    rewrite bool_decide_eq_true_2 by lia.
    destruct (lookup_lt_is_Some_2 codes (cell (idx `div` 2) (idx `mod` 2))) as [v Hv].
    { rewrite <- cell_div_mod. lia. }
    rewrite Hv. f_equal.
    rewrite <- (get_code_lookup _ _ _ _ Hv).
    apply eepromReadLong_SetData; [done..|].
    rewrite (get_code_lookup _ _ _ _ Hv).
    rewrite Forall_lookup in Hall. by eapply Hall.
  - rewrite !lookup_ge_None_2; [done|lia|].
    unfold eepromGetData. rewrite length_get_data_from. lia.
Qed.

(** ** The setup branch of [loop] *)

Section SetupBranch.

Variable EEPROM_length : nat.

(** What a completed setup branch did: two learning sessions on the same
    array, physical remote first, and the EEPROM writes in program order. *)
Lemma loop_setup_Some st (e : eeprom) input st' e' rest :
  loop_setup EEPROM_length st e input = Some (st', e', rest) →
  ∃ phy codes1 input1 emu codes2,
    learnIRKeyCodes (irKeyCodes st) NUMBER_OF_KEYS 0 input = Some (phy, codes1, input1)
    ∧ learnIRKeyCodes codes1 NUMBER_OF_KEYS 1 input1 = Some (emu, codes2, rest)
    ∧ st' = {| irKeyCodes := codes2; eepromIdValue := EEPROM_ID_VALUE;
               phyIrType := phy; emuIrType := emu; setupMode := false |}
    ∧ e' = eepromSetData EEPROM_DATA_ADDRESS codes2 NUMBER_OF_KEYS
             (eepromWriteByte emu EEPROM_EMU_IR_TYPE_ADDRESS
                (eepromWriteByte phy EEPROM_PHY_IR_TYPE_ADDRESS
                   (eepromWriteByte EEPROM_ID_VALUE EEPROM_ID_ADDRESS
                      (eepromErase EEPROM_length e)))).
Proof.
  unfold loop_setup. cbv zeta. intros H.
  destruct (learnIRKeyCodes (irKeyCodes st) NUMBER_OF_KEYS 0 input)
    as [[[phy codes1] input1]|] eqn:H1; [|done].
  cbn [mbind option_bind] in H.
  destruct (learnIRKeyCodes codes1 NUMBER_OF_KEYS 1 input1)
    as [[[emu codes2] input2]|] eqn:H2; [|done].
  cbn [mbind option_bind] in H. injection H as <- <- <-.
  exists phy, codes1, input1, emu, codes2. done.
Qed.

Lemma loop_setup_intro st (e : eeprom) input phy codes1 input1 emu codes2 rest :
  learnIRKeyCodes (irKeyCodes st) NUMBER_OF_KEYS 0 input = Some (phy, codes1, input1) →
  learnIRKeyCodes codes1 NUMBER_OF_KEYS 1 input1 = Some (emu, codes2, rest) →
  loop_setup EEPROM_length st e input
  = Some ({| irKeyCodes := codes2; eepromIdValue := EEPROM_ID_VALUE;
             phyIrType := phy; emuIrType := emu; setupMode := false |},
          eepromSetData EEPROM_DATA_ADDRESS codes2 NUMBER_OF_KEYS
            (eepromWriteByte emu EEPROM_EMU_IR_TYPE_ADDRESS
               (eepromWriteByte phy EEPROM_PHY_IR_TYPE_ADDRESS
                  (eepromWriteByte EEPROM_ID_VALUE EEPROM_ID_ADDRESS
                     (eepromErase EEPROM_length e)))),
          rest).
Proof.
  intros H1 H2. unfold loop_setup. cbv zeta.
  rewrite H1. cbn [mbind option_bind]. rewrite H2. cbn [mbind option_bind].
  reflexivity.
Qed.

End SetupBranch.

(** The three header bytes survive the table write. *)
Lemma eepromSetData_header codes n (e : eeprom) a :
  (a < EEPROM_DATA_ADDRESS)%nat →
  eepromSetData EEPROM_DATA_ADDRESS codes n e a = e a.
Proof. intros Ha. unfold eepromSetData. apply set_data_from_other. lia. Qed.

(** C5. Writing an image (identity byte, the two protocol bytes, the table)
    and reading it back gives the same image, for every table of 32-bit
    codes, the values 0 and 0xFFFFFFFF included; and a long written by
    [eepromWriteLong] at any address is read back by [eepromReadLong]. *)
Theorem eeprom_image_round_trip
    (v : Z) (a : nat) (e0 : eeprom)
    (id phy emu : Z) (codes scratch : list Z) (e : eeprom) :
  is_u32 v →
  length codes = (2 * NUMBER_OF_KEYS)%nat →
  length scratch = (2 * NUMBER_OF_KEYS)%nat →
  Forall is_u32 codes →
  let e' := eepromSetData EEPROM_DATA_ADDRESS codes NUMBER_OF_KEYS
              (eepromWriteByte emu EEPROM_EMU_IR_TYPE_ADDRESS
                 (eepromWriteByte phy EEPROM_PHY_IR_TYPE_ADDRESS
                    (eepromWriteByte id EEPROM_ID_ADDRESS e))) in
  eepromReadLong a (eepromWriteLong v a e0) = v
  ∧ eepromReadByte EEPROM_ID_ADDRESS e' = id
  ∧ eepromReadByte EEPROM_PHY_IR_TYPE_ADDRESS e' = phy
  ∧ eepromReadByte EEPROM_EMU_IR_TYPE_ADDRESS e' = emu
  ∧ eepromGetData EEPROM_DATA_ADDRESS scratch NUMBER_OF_KEYS e' = codes.
Proof.
  intros Hv Hc Hs Hall e'. split; [by apply eepromReadLong_WriteLong|].
  unfold eepromReadByte, EEPROM_read. subst e'.
  rewrite !eepromSetData_header by (vm_compute; lia).
  unfold eepromWriteByte.
  split_and!.
  - rewrite !EEPROM_write_ne by done. apply EEPROM_write_eq.
  - rewrite EEPROM_write_ne by done. apply EEPROM_write_eq.
  - apply EEPROM_write_eq.
  - by apply eepromGetData_SetData.
Qed.

(** C6. After the setup branch of [loop] the EEPROM holds the identity value
    at offset 0, the physical protocol byte at offset 1, the emulated
    protocol byte at offset 2 and, for each of the 15 slots [i], the bytes of
    the physical code at offsets [3 + 8 i .. 3 + 8 i + 3] and those of the
    emulated code at [3 + 8 i + 4 .. 3 + 8 i + 7], least significant byte
    first. *)
Theorem eeprom_layout (EEPROM_length : nat)
    st (e : eeprom) input st' (e' : eeprom) rest (i k : nat) :
  loop_setup EEPROM_length st e input = Some (st', e', rest) →
  (i < NUMBER_OF_KEYS)%nat → (k < 4)%nat →
  e' 0%nat = EEPROM_ID_VALUE
  ∧ e' 1%nat = phyIrType st'
  ∧ e' 2%nat = emuIrType st'
  ∧ e' (3 + 8 * i + k)%nat = byte_of (get_code (irKeyCodes st') i 0) k
  ∧ e' (3 + 8 * i + 4 + k)%nat = byte_of (get_code (irKeyCodes st') i 1) k.
Proof.
  intros H Hi Hk.
  destruct (loop_setup_Some _ _ _ _ _ _ _ H)
    as (phy & codes1 & input1 & emu & codes2 & _ & _ & -> & ->).
  cbn [irKeyCodes phyIrType emuIrType].
  rewrite !eepromSetData_header by (vm_compute; lia).
  unfold eepromWriteByte. split_and!.
  - rewrite !EEPROM_write_ne by done. apply EEPROM_write_eq.
  - rewrite EEPROM_write_ne by done. apply EEPROM_write_eq.
  - apply EEPROM_write_eq.
  - unfold eepromSetData.
    replace (3 + 8 * i + k)%nat with (EEPROM_DATA_ADDRESS + 8 * i + 4 * 0 + k)%nat
      by (unfold EEPROM_DATA_ADDRESS, EEPROM_EMU_IR_TYPE_ADDRESS,
            EEPROM_PHY_IR_TYPE_ADDRESS, EEPROM_ID_ADDRESS; lia).
    apply set_data_from_byte; lia.
  - unfold eepromSetData.
    replace (3 + 8 * i + 4 + k)%nat with (EEPROM_DATA_ADDRESS + 8 * i + 4 * 1 + k)%nat
      by (unfold EEPROM_DATA_ADDRESS, EEPROM_EMU_IR_TYPE_ADDRESS,
            EEPROM_PHY_IR_TYPE_ADDRESS, EEPROM_ID_ADDRESS; lia).
    apply set_data_from_byte; lia.
Qed.

(** ** One poll of a learning session *)

Lemma learn_poll_None r st : learn_poll r st None = st.
Proof. done. Qed.

Lemma learn_poll_reject r st d :
  value d = ULONG_MINUS_ONE ∨ value d = l_previousValue st →
  learn_poll r st (Some d) = st.
Proof.
  intros H. unfold learn_poll.
  destruct (decide (value d = ULONG_MINUS_ONE)) as [Heq|Hne].
  - rewrite (bool_decide_eq_false_2 (value d ≠ ULONG_MINUS_ONE)) by (intros Hd; done).
    done.
  - destruct H as [H|H]; [done|].
    rewrite (bool_decide_eq_false_2 (value d ≠ l_previousValue st)) by (intros Hd; done).
    by rewrite andb_false_r.
Qed.

Lemma learn_poll_accept r st d :
  value d ≠ ULONG_MINUS_ONE → value d ≠ l_previousValue st →
  learn_poll r st (Some d)
  = {| l_i := S (l_i st);
       l_remoteType := if bool_decide (l_i st = 0%nat) then decode_type d
                       else l_remoteType st;
       l_previousValue := value d;
       l_codes := set_code (l_codes st) (l_i st) r (value d) |}.
Proof.
  intros H1 H2. unfold learn_poll.
  rewrite (bool_decide_eq_true_2 (value d ≠ ULONG_MINUS_ONE)) by done.
  rewrite (bool_decide_eq_true_2 (value d ≠ l_previousValue st)) by done.
  done.
Qed.

Lemma learn_poll_no_key r codes p :
  no_key p → learn_poll r (learn_init codes) p = learn_init codes.
Proof.
  intros H. destruct p as [d|]; [|done].
  apply learn_poll_reject. left. by apply H.
Qed.

(** A poll either leaves the state alone or fills the current slot. *)
Lemma learn_poll_cases r st p :
  learn_poll r st p = st
  ∨ ∃ d, p = Some d ∧ value d ≠ ULONG_MINUS_ONE ∧ value d ≠ l_previousValue st
         ∧ learn_poll r st p
           = {| l_i := S (l_i st);
                l_remoteType := if bool_decide (l_i st = 0%nat) then decode_type d
                                else l_remoteType st;
                l_previousValue := value d;
                l_codes := set_code (l_codes st) (l_i st) r (value d) |}.
Proof.
  destruct p as [d|]; [|by left].
  destruct (decide (value d = ULONG_MINUS_ONE)) as [?|H1].
  { left. apply learn_poll_reject. by left. }
  destruct (decide (value d = l_previousValue st)) as [?|H2].
  { left. apply learn_poll_reject. by right. }
  right. exists d. split_and!; [done..|]. by apply learn_poll_accept.
Qed.

Lemma learn_poll_length r st p :
  length (l_codes (learn_poll r st p)) = length (l_codes st).
Proof.
  destruct (learn_poll_cases r st p) as [->|(d & _ & _ & _ & ->)]; [done|].
  apply length_set_code.
Qed.

(** A poll writes no cell other than [[i][dataSetRow]]. *)
Lemma learn_poll_lookup_ne r st p idx :
  idx ≠ cell (l_i st) r → l_codes (learn_poll r st p) !! idx = l_codes st !! idx.
Proof.
  intros Hne.
  destruct (learn_poll_cases r st p) as [->|(d & _ & _ & _ & ->)]; [done|].
  cbn [l_codes]. unfold set_code. by rewrite list_lookup_insert_ne.
Qed.

(** ** The loop of a learning session *)

Lemma learn_loop_waiting n r st p rest :
  (l_i st < n)%nat →
  learn_loop n r st (p :: rest) = learn_loop n r (learn_poll r st p) rest.
Proof. intros H. cbn [learn_loop]. by rewrite bool_decide_eq_true_2. Qed.

Lemma learn_loop_done n r st input :
  (n ≤ l_i st)%nat → learn_loop n r st input = Some (st, input).
Proof.
  intros H. destruct input; cbn [learn_loop];
    by rewrite bool_decide_eq_false_2 by lia.
Qed.

(** An invariant of the polls is an invariant of the loop. *)
Lemma learn_loop_ind (P : learn_state → Prop) n r :
  (∀ st p, P st → (l_i st < n)%nat → P (learn_poll r st p)) →
  ∀ input st st' rest,
    P st → learn_loop n r st input = Some (st', rest) → P st'.
Proof.
  intros Hstep. induction input as [|p input IH]; intros st st' rest HP Hrun.
  - cbn [learn_loop] in Hrun. case_bool_decide; [done|]. by simplify_eq.
  - destruct (decide (l_i st < n)%nat) as [Hlt|Hge].
    + rewrite learn_loop_waiting in Hrun by done. eapply IH; [|done]. by apply Hstep.
    + rewrite learn_loop_done in Hrun by lia. by simplify_eq.
Qed.

(** Unfolding of [learnIRKeyCodes] on a script that completes. *)
Lemma learnIRKeyCodes_Some codes n r input ret codes' rest :
  learnIRKeyCodes codes n r input = Some (ret, codes', rest) →
  ∃ input1 st,
    flush input = Some input1
    ∧ learn_loop n r (learn_init codes) input1 = Some (st, rest)
    ∧ ret = to_byte (l_remoteType st + 1)
    ∧ codes' = l_codes st.
Proof.
  unfold learnIRKeyCodes. intros H.
  destruct (flush input) as [input1|] eqn:Hf; [|done].
  cbn [mbind option_bind] in H.
  destruct (learn_loop n r (learn_init codes) input1) as [[st rest1]|] eqn:Hl; [|done].
  cbn [mbind option_bind] in H. injection H as <- <- <-.
  by exists input1, st.
Qed.

Lemma flush_stale stale input :
  Forall is_Some stale → flush (stale ++ None :: input) = Some input.
Proof.
  induction 1 as [|p stale [d ->] _ IH]; [done|]. exact IH.
Qed.

Lemma get_code_lookup_eq (codes codes' : list Z) i r :
  codes' !! cell i r = codes !! cell i r → get_code codes' i r = get_code codes i r.
Proof. unfold get_code. rewrite !list_lookup_total_alt. by intros ->. Qed.

Lemma get_set_code codes i r v :
  (cell i r < length codes)%nat → get_code (set_code codes i r v) i r = v.
Proof.
  intros H. apply get_code_lookup. unfold set_code. by apply list_lookup_insert_eq.
Qed.

(** The first key of a session: polls that bring nothing are skipped, the
    first decoded value other than [0xFFFFFFFF] fills slot 0 and gives the
    session its protocol. *)
Lemma learn_loop_first_key n r codes waits s rest :
  (0 < n)%nat → Forall no_key waits → value s ≠ ULONG_MINUS_ONE →
  learn_loop n r (learn_init codes) (waits ++ Some s :: rest)
  = learn_loop n r {| l_i := 1; l_remoteType := decode_type s;
                      l_previousValue := value s;
                      l_codes := set_code codes 0 r (value s) |} rest.
Proof.
  intros Hn Hw Hs. induction Hw as [|p waits Hp _ IH].
  - cbn [app]. rewrite learn_loop_waiting by (cbn; lia).
    rewrite learn_poll_accept by done. done.
  - cbn [app]. rewrite learn_loop_waiting by (cbn; lia).
    rewrite learn_poll_no_key by done. exact IH.
Qed.

(** Once slot 0 is filled the protocol of the session is fixed. *)
Lemma learn_loop_remoteType n r input st st' rest :
  (0 < l_i st)%nat → learn_loop n r st input = Some (st', rest) →
  l_remoteType st' = l_remoteType st.
Proof.
  intros Hi Hrun.
  assert ((0 < l_i st')%nat ∧ l_remoteType st' = l_remoteType st) as [_ ?]; [|done].
  eapply (learn_loop_ind (λ s, (0 < l_i s)%nat ∧ l_remoteType s = l_remoteType st) n r);
    [|split; [exact Hi|reflexivity]|exact Hrun].
  intros st0 p [Hpos Heq] _.
  destruct (learn_poll_cases r st0 p) as [->|(d & _ & _ & _ & ->)]; [done|].
  cbn [l_i l_remoteType]. split; [lia|].
  rewrite bool_decide_eq_false_2 by lia. done.
Qed.

Lemma learnIRKeyCodes_first_key codes n r stale waits s tail ret codes' rest :
  (0 < n)%nat → Forall is_Some stale → Forall no_key waits →
  value s ≠ ULONG_MINUS_ONE →
  learnIRKeyCodes codes n r (stale ++ None :: waits ++ Some s :: tail)
  = Some (ret, codes', rest) →
  ret = to_byte (decode_type s + 1).
Proof.
  intros Hn Hst Hw Hs Hrun.
  destruct (learnIRKeyCodes_Some _ _ _ _ _ _ _ Hrun) as (input1 & st & Hf & Hl & -> & _).
  rewrite flush_stale in Hf by done. simplify_eq.
  rewrite learn_loop_first_key in Hl by done.
  apply learn_loop_remoteType in Hl; [|cbn; lia].
  by rewrite Hl.
Qed.

(** In a session the filter always holds the last accepted value: the
    initial [0xFFFFFFFF] while slot 0 is open, and afterwards the code stored
    for the preceding slot. *)
Lemma learn_reach_previous n r codes st :
  (r < 2)%nat → (2 * n ≤ length codes)%nat → learn_reach n r codes st →
  length (l_codes st) = length codes
  ∧ (l_i st ≤ n)%nat
  ∧ (l_i st = 0%nat → l_previousValue st = ULONG_MINUS_ONE)
  ∧ ((0 < l_i st)%nat → get_code (l_codes st) (l_i st - 1) r = l_previousValue st).
Proof.
  intros Hr Hlen. induction 1 as [|st p _ (IHl & IHn & IH0 & IH1) Hw].
  - cbn. split_and!; [done|lia|done|lia].
  - destruct (learn_poll_cases r st p) as [->|(d & _ & _ & _ & ->)].
    { split_and!; [done|lia|done..]. }
    cbn [l_i l_codes l_previousValue]. rewrite length_set_code.
    split_and!; [done|lia|lia|]. intros _.
    replace (S (l_i st) - 1)%nat with (l_i st) by lia.
    apply get_set_code. unfold cell. lia.
Qed.


(** A session returns once it has seen a fresh key for every slot. *)
Lemma learn_loop_completes n r ds st rest :
  (l_i st + length ds = n)%nat → fresh_keys (l_previousValue st) ds →
  ∃ st', learn_loop n r st (map Some ds ++ rest) = Some (st', rest) ∧ l_i st' = n.
Proof.
  revert st. induction ds as [|d ds IH]; intros st Hlen Hfresh.
  - exists st. cbn [map app length] in *. split; [|lia]. apply learn_loop_done. lia.
  - cbn [map app length fresh_keys] in *. destruct Hfresh as (H1 & H2 & Hfresh).
    rewrite learn_loop_waiting by lia. rewrite learn_poll_accept by done.
    apply IH; cbn [l_i l_previousValue]; [lia|done].
Qed.

Lemma learnIRKeyCodes_completes codes n r ds rest :
  length ds = n → fresh_keys ULONG_MINUS_ONE ds →
  ∃ ret codes', learnIRKeyCodes codes n r (None :: map Some ds ++ rest)
                = Some (ret, codes', rest).
Proof.
  intros Hlen Hfresh.
  destruct (learn_loop_completes n r ds (learn_init codes) rest) as (st' & Hrun & _);
    [cbn; lia|done|].
  unfold learnIRKeyCodes. cbn [flush mbind option_bind]. rewrite Hrun.
  cbn [mbind option_bind]. eauto.
Qed.

(** ** Learning sessions *)

(** C10. A learning session for column [r] (0: physical, 1: emulated)
    leaves every entry [codes[i][1 - r]] of the other column as it was. *)
Theorem learn_other_column_unchanged
    (codes : list Z) (n r : nat) (input : ir_input)
    (ret : Z) (codes' : list Z) (rest : ir_input) (i : nat) :
  (r < 2)%nat →
  learnIRKeyCodes codes n r input = Some (ret, codes', rest) →
  codes' !! cell i (1 - r) = codes !! cell i (1 - r)
  ∧ get_code codes' i (1 - r) = get_code codes i (1 - r)
  ∧ length codes' = length codes.
Proof.
  intros Hr Hrun.
  destruct (learnIRKeyCodes_Some _ _ _ _ _ _ _ Hrun) as (input1 & st & _ & Hl & _ & ->).
  assert (l_codes st !! cell i (1 - r) = codes !! cell i (1 - r)
          ∧ length (l_codes st) = length codes) as [Hcell Hlen].
  { refine (learn_loop_ind
              (λ s, l_codes s !! cell i (1 - r) = codes !! cell i (1 - r)
                    ∧ length (l_codes s) = length codes)
              n r _ input1 (learn_init codes) st rest _ Hl); [|done].
    intros st0 p [H1 H2] _. split.
    - rewrite learn_poll_lookup_ne; [done|]. unfold cell. lia.
    - by rewrite learn_poll_length. }
  split_and!; [done| |done]. by apply get_code_lookup_eq.
Qed.

(** C3 (as the code has it). The previous-code filter is set once, before
    the first slot, and is not reset when the session moves to the next
    slot: at every slot after the first it holds the code accepted for the
    preceding slot, a decoded signal with that code is rejected (the slot is
    not filled and the session does not advance), and a signal with another
    code, other than [0xFFFFFFFF], fills the slot. *)
Theorem learn_filter_spans_slots
    (n r : nat) (codes : list Z) (st : learn_state) (d : decode_results) :
  (r < 2)%nat → (2 * n ≤ length codes)%nat →
  learn_reach n r codes st →
  (0 < l_i st)%nat →
  l_previousValue st = get_code (l_codes st) (l_i st - 1) r
  ∧ (value d = get_code (l_codes st) (l_i st - 1) r →
     learn_poll r st (Some d) = st)
  ∧ (value d ≠ get_code (l_codes st) (l_i st - 1) r →
     value d ≠ ULONG_MINUS_ONE →
     l_i (learn_poll r st (Some d)) = S (l_i st)
     ∧ l_codes (learn_poll r st (Some d)) = set_code (l_codes st) (l_i st) r (value d)).
Proof.
  intros Hr Hlen Hreach Hi.
  destruct (learn_reach_previous _ _ _ _ Hr Hlen Hreach) as (_ & _ & _ & Hprev).
  specialize (Hprev Hi). split_and!; [done| |].
  - intros Hd. apply learn_poll_reject. right. congruence.
  - intros Hd Hm. rewrite learn_poll_accept by congruence. done.
Qed.

(** C7. A completed learning session returns the protocol of the signal
    accepted for its first slot, plus one, whatever is accepted for the later
    slots; and after a completed setup branch the two protocol bytes of the
    EEPROM are the values the physical and the emulated session returned. *)
Theorem learned_protocol_persisted
    (codes : list Z) (n r : nat) (stale waits : ir_input) (s : decode_results)
    (tail : ir_input) (ret : Z) (codes' : list Z) (rest : ir_input)
    (EEPROM_length : nat) (st : globals) (e : eeprom) (input : ir_input)
    (st' : globals) (e' : eeprom) (rest' : ir_input) :
  (0 < n)%nat →
  Forall is_Some stale → Forall no_key waits → value s ≠ ULONG_MINUS_ONE →
  -1 ≤ decode_type s < 255 →
  learnIRKeyCodes codes n r (stale ++ None :: waits ++ Some s :: tail)
  = Some (ret, codes', rest) →
  loop_setup EEPROM_length st e input = Some (st', e', rest') →
  ret = decode_type s + 1
  ∧ ∃ phy codes1 input1 emu codes2,
      learnIRKeyCodes (irKeyCodes st) NUMBER_OF_KEYS 0 input = Some (phy, codes1, input1)
      ∧ learnIRKeyCodes codes1 NUMBER_OF_KEYS 1 input1 = Some (emu, codes2, rest')
      ∧ phyIrType st' = phy ∧ emuIrType st' = emu
      ∧ eepromReadByte EEPROM_PHY_IR_TYPE_ADDRESS e' = phy
      ∧ eepromReadByte EEPROM_EMU_IR_TYPE_ADDRESS e' = emu.
Proof.
  intros Hn Hst Hw Hs Hrange Hrun Hsetup. split.
  - rewrite (learnIRKeyCodes_first_key _ _ _ _ _ _ _ _ _ _ Hn Hst Hw Hs Hrun).
    unfold to_byte. apply Z.mod_small. lia.
  - destruct (loop_setup_Some _ _ _ _ _ _ _ Hsetup)
      as (phy & codes1 & input1 & emu & codes2 & H1 & H2 & -> & ->).
    exists phy, codes1, input1, emu, codes2. split_and!; [done..| |].
    + unfold eepromReadByte, EEPROM_read.
      rewrite eepromSetData_header by (vm_compute; lia).
      unfold eepromWriteByte. rewrite EEPROM_write_ne by done. apply EEPROM_write_eq.
    + unfold eepromReadByte, EEPROM_read.
      rewrite eepromSetData_header by (vm_compute; lia).
      unfold eepromWriteByte. apply EEPROM_write_eq.
Qed.

(** ** Table lookup *)

Lemma lookup_from_spec codes code k i :
  match lookup_from codes code i k with
  | Some m => (i ≤ m < i + k)%nat ∧ get_code codes m 0 = code
              ∧ ∀ j, (i ≤ j < m)%nat → get_code codes j 0 ≠ code
  | None => ∀ j, (i ≤ j < i + k)%nat → get_code codes j 0 ≠ code
  end.
Proof.
  revert i. induction k as [|k IH]; intros i; cbn [lookup_from].
  { intros j Hj. lia. }
  case_bool_decide as Heq.
  - split; [lia|]. split; [done|]. intros j Hj. lia.
  - specialize (IH (S i)). destruct (lookup_from codes code (S i) k) as [m|].
    + destruct IH as (Hm & Hc & Hlow). split; [lia|]. split; [done|].
      intros j Hj. destruct (decide (j = i)) as [->|]; [done|]. apply Hlow. lia.
    + intros j Hj. destruct (decide (j = i)) as [->|]; [done|]. apply IH. lia.
Qed.

(** C4. The table scan returns the lowest slot whose physical code equals
    the queried code, and nothing when no slot of the table has that code;
    with the rows (0x10, 0x20), (0x10, 0x40) a query for 0x10 gives slot 0. *)
Theorem lookup_first_match (codes : list Z) (n : nat) (code : Z) :
  match lookup codes n code with
  | Some i => (i < n)%nat ∧ get_code codes i 0 = code
              ∧ ∀ j, (j < i)%nat → get_code codes j 0 ≠ code
  | None => ∀ j, (j < n)%nat → get_code codes j 0 ≠ code
  end
  ∧ lookup [0x10; 0x20; 0x10; 0x40] 2 0x10 = Some 0%nat
  ∧ lookup [0x10; 0x20; 0x30; 0x40] 2 0x99 = None.
Proof.
  split; [|done]. unfold lookup.
  pose proof (lookup_from_spec codes code n 0) as H.
  destruct (lookup_from codes code 0 n) as [m|].
  - destruct H as (Hm & Hc & Hlow). split_and!; [lia|done|].
    intros j Hj. apply Hlow. lia.
  - intros j Hj. apply H. lia.
Qed.

(** ** Dispatch *)

Lemma send_default JVC SAMSUNG tag data :
  tag ≠ JVC → tag ≠ SAMSUNG → send JVC SAMSUNG tag data = [SendJVC data 16 0].
Proof. intros H1 H2. unfold send. by rewrite !bool_decide_eq_false_2. Qed.

Lemma send_transmits JVC SAMSUNG tag data :
  send JVC SAMSUNG tag data = [SendJVC data 16 0]
  ∨ send JVC SAMSUNG tag data = [SendSAMSUNG data 32].
Proof. unfold send. repeat case_bool_decide; auto. Qed.

Lemma dispatch_hit JVC SAMSUNG st d i :
  value d > 0 →
  lookup (irKeyCodes st) NUMBER_OF_KEYS (value d) = Some i →
  dispatch JVC SAMSUNG st (Some d)
  = send JVC SAMSUNG (emuIrType st - 1) (get_code (irKeyCodes st) i 1)
      ++ [EnableIRIn; Resume].
Proof.
  intros Hd Hl. unfold dispatch. cbv zeta.
  rewrite bool_decide_eq_true_2 by done. rewrite Hl.
  by rewrite <- app_assoc.
Qed.

Lemma loop_operating JVC SAMSUNG EEPROM_length st (e : eeprom) p input :
  setupMode st = false →
  loop JVC SAMSUNG EEPROM_length st e (p :: input)
  = Some (st, e, dispatch JVC SAMSUNG st p, input).
Proof. intros H. unfold loop. by rewrite H. Qed.

(** C1 (as the code has it). When the decoded code matches a row and the
    emulated protocol tag, after the decrement, is neither JVC nor SAMSUNG,
    the [default:] label of the switch applies, which stands on the JVC
    case: the iteration makes one transmit call, [sendJVC] of the emulated
    code with 16 bits, re-arms the receiver and ends normally. *)
Theorem unsupported_tag_sends_JVC
    (JVC SAMSUNG : Z) (EEPROM_length : nat)
    (st : globals) (e : eeprom) (d : decode_results) (input : ir_input) (i : nat) :
  setupMode st = false →
  value d > 0 →
  lookup (irKeyCodes st) NUMBER_OF_KEYS (value d) = Some i →
  emuIrType st - 1 ≠ JVC → emuIrType st - 1 ≠ SAMSUNG →
  loop JVC SAMSUNG EEPROM_length st e (Some d :: input)
  = Some (st, e,
          [SendJVC (get_code (irKeyCodes st) i 1) 16 0; EnableIRIn; Resume],
          input).
Proof.
  intros Hm Hd Hl HJ HS.
  rewrite loop_operating by done.
  rewrite (dispatch_hit _ _ _ _ _ Hd Hl), send_default by done. done.
Qed.

(** C2 (as the code has it). A dispatch iteration keeps no previous code:
    it rejects only the raw code 0.  A decoded signal with a non-zero raw
    code that matches a row is looked up and transmitted in every iteration
    that receives it, also when the iteration before received the same
    code. *)
Theorem dispatch_has_no_debounce
    (JVC SAMSUNG : Z) (EEPROM_length : nat)
    (st : globals) (e : eeprom) (d : decode_results) (input : ir_input) (i : nat) :
  setupMode st = false →
  value d > 0 →
  lookup (irKeyCodes st) NUMBER_OF_KEYS (value d) = Some i →
  ∃ sent,
    (sent = SendJVC (get_code (irKeyCodes st) i 1) 16 0
     ∨ sent = SendSAMSUNG (get_code (irKeyCodes st) i 1) 32)
    ∧ loop JVC SAMSUNG EEPROM_length st e (Some d :: Some d :: input)
      = Some (st, e, [sent; EnableIRIn; Resume], Some d :: input)
    ∧ loop JVC SAMSUNG EEPROM_length st e (Some d :: input)
      = Some (st, e, [sent; EnableIRIn; Resume], input).
Proof.
  intros Hm Hd Hl.
  destruct (send_transmits JVC SAMSUNG (emuIrType st - 1) (get_code (irKeyCodes st) i 1))
    as [Hs|Hs]; eexists; (split; [|split]);
    try (rewrite loop_operating, (dispatch_hit _ _ _ _ _ Hd Hl), Hs by done; reflexivity).
  - by left.
  - by right.
Qed.

(** * The code on sample data *)

(** ** Runs that show where the code departs from a debounced, no-op design *)

(** With the stored emulated protocol byte 4 (tag 3, neither 6 = JVC nor
    7 = SAMSUNG) a matched code is transmitted through [sendJVC]. *)
Lemma unsupported_tag_transmits :
  4 - 1 ≠ sample_JVC ∧ 4 - 1 ≠ sample_SAMSUNG
  ∧ lookup (irKeyCodes (sample_globals 4)) NUMBER_OF_KEYS (value sample_A) = Some 0%nat
  ∧ dispatch sample_JVC sample_SAMSUNG (sample_globals 4) (Some sample_A)
    = [SendJVC 0x20 16 0; EnableIRIn; Resume].
Proof. split_and!; done. Qed.

(** Two iterations of [loop] in a row that receive the same code both look
    it up and transmit. *)
Lemma repeated_code_dispatched_twice :
  loop sample_JVC sample_SAMSUNG sample_EEPROM_length (sample_globals 8) (λ _, 0)
    [Some sample_A; Some sample_A]
  = Some (sample_globals 8, λ _, 0, [SendSAMSUNG 0x20 32; EnableIRIn; Resume],
          [Some sample_A])
  ∧ loop sample_JVC sample_SAMSUNG sample_EEPROM_length (sample_globals 8) (λ _, 0)
      [Some sample_A]
    = Some (sample_globals 8, λ _, 0, [SendSAMSUNG 0x20 32; EnableIRIn; Resume], []).
Proof. split; reflexivity. Qed.

(** In a session on two slots, the code accepted for slot 0 is not accepted
    for slot 1 when it is decoded again: the state stays as it was, and slot
    1 is filled by the next different code. *)
Lemma same_code_rejected_for_next_slot :
  let st1 := learn_poll 0 (learn_init [0; 0; 0; 0]) (Some sample_A) in
  l_i st1 = 1%nat
  ∧ get_code (l_codes st1) 0 0 = value sample_A
  ∧ learn_poll 0 st1 (Some sample_A) = st1
  ∧ learnIRKeyCodes [0; 0; 0; 0] 2 0 [None; Some sample_A; Some sample_A] = None
  ∧ learnIRKeyCodes [0; 0; 0; 0] 2 0
      [None; Some sample_A; Some sample_A; Some sample_B]
    = Some (4, [0x10; 0; 0x30; 0], []).
Proof. split_and!; reflexivity. Qed.

(** ** Instances of the theorems *)

Lemma unsupported_tag_sends_JVC_witness :
  loop sample_JVC sample_SAMSUNG sample_EEPROM_length (sample_globals 4) (λ _, 0)
    [Some sample_A]
  = Some (sample_globals 4, λ _, 0, [SendJVC 0x20 16 0; EnableIRIn; Resume], []).
Proof.
  apply (unsupported_tag_sends_JVC sample_JVC sample_SAMSUNG sample_EEPROM_length
           (sample_globals 4) (λ _, 0) sample_A [] 0); [reflexivity|reflexivity|
           reflexivity|vm_compute; discriminate|vm_compute; discriminate].
Defined.

Lemma dispatch_has_no_debounce_witness :
  ∃ sent,
    (sent = SendJVC 0x20 16 0 ∨ sent = SendSAMSUNG 0x20 32)
    ∧ loop sample_JVC sample_SAMSUNG sample_EEPROM_length (sample_globals 8) (λ _, 0)
        [Some sample_A; Some sample_A; None]
      = Some (sample_globals 8, λ _, 0, [sent; EnableIRIn; Resume], [Some sample_A; None])
    ∧ loop sample_JVC sample_SAMSUNG sample_EEPROM_length (sample_globals 8) (λ _, 0)
        [Some sample_A; None]
      = Some (sample_globals 8, λ _, 0, [sent; EnableIRIn; Resume], [None]).
Proof.
  apply (dispatch_has_no_debounce sample_JVC sample_SAMSUNG sample_EEPROM_length
           (sample_globals 8) (λ _, 0) sample_A [None] 0); reflexivity.
Defined.

Lemma learn_filter_spans_slots_witness :
  let st1 := learn_poll 0 (learn_init [0; 0; 0; 0]) (Some sample_A) in
  l_previousValue st1 = get_code (l_codes st1) (l_i st1 - 1) 0
  ∧ (value sample_A = get_code (l_codes st1) (l_i st1 - 1) 0 →
     learn_poll 0 st1 (Some sample_A) = st1)
  ∧ (value sample_A ≠ get_code (l_codes st1) (l_i st1 - 1) 0 →
     value sample_A ≠ ULONG_MINUS_ONE →
     l_i (learn_poll 0 st1 (Some sample_A)) = S (l_i st1)
     ∧ l_codes (learn_poll 0 st1 (Some sample_A))
       = set_code (l_codes st1) (l_i st1) 0 (value sample_A)).
Proof.
  apply (learn_filter_spans_slots 2 0 [0; 0; 0; 0]
           (learn_poll 0 (learn_init [0; 0; 0; 0]) (Some sample_A)) sample_A).
  - lia.
  - simpl. lia.
  - apply reach_poll; [apply reach_init|simpl; lia].
  - vm_compute. lia.
Defined.

Lemma lookup_first_match_witness :
  match lookup sample_table NUMBER_OF_KEYS 0x10 with
  | Some i => (i < NUMBER_OF_KEYS)%nat ∧ get_code sample_table i 0 = 0x10
              ∧ ∀ j, (j < i)%nat → get_code sample_table j 0 ≠ 0x10
  | None => ∀ j, (j < NUMBER_OF_KEYS)%nat → get_code sample_table j 0 ≠ 0x10
  end.
Proof. exact (proj1 (lookup_first_match sample_table NUMBER_OF_KEYS 0x10)). Defined.

Lemma eeprom_image_round_trip_witness :
  let e' := eepromSetData EEPROM_DATA_ADDRESS sample_codes NUMBER_OF_KEYS
              (eepromWriteByte 8 EEPROM_EMU_IR_TYPE_ADDRESS
                 (eepromWriteByte 4 EEPROM_PHY_IR_TYPE_ADDRESS
                    (eepromWriteByte EEPROM_ID_VALUE EEPROM_ID_ADDRESS (λ _, 0xFF)))) in
  eepromReadLong 3 (eepromWriteLong 0xFFFFFFFF 3 (λ _, 0)) = 0xFFFFFFFF
  ∧ eepromReadByte EEPROM_ID_ADDRESS e' = EEPROM_ID_VALUE
  ∧ eepromReadByte EEPROM_PHY_IR_TYPE_ADDRESS e' = 4
  ∧ eepromReadByte EEPROM_EMU_IR_TYPE_ADDRESS e' = 8
  ∧ eepromGetData EEPROM_DATA_ADDRESS (replicate 30 0) NUMBER_OF_KEYS e' = sample_codes.
Proof.
  apply (eeprom_image_round_trip 0xFFFFFFFF 3 (λ _, 0) EEPROM_ID_VALUE 4 8
           sample_codes (replicate 30 0) (λ _, 0xFF)).
  - unfold is_u32. lia.
  - reflexivity.
  - reflexivity.
  - apply (bool_decide_unpack _). vm_compute. reflexivity.
Defined.


Lemma sample_session_physical :
  learnIRKeyCodes (irKeyCodes globals_init) NUMBER_OF_KEYS 0 sample_script
  = Some (4, sample_physical, sample_script_emulated).
Proof. vm_compute. reflexivity. Qed.

Lemma sample_session_emulated :
  learnIRKeyCodes sample_physical NUMBER_OF_KEYS 1 sample_script_emulated
  = Some (8, sample_learned, [Some {| decode_type := 3; value := 0xFFA25D |}]).
Proof. vm_compute. reflexivity. Qed.


Lemma sample_setup_run :
  loop_setup sample_EEPROM_length globals_init (λ _, 0xFF) sample_script
  = Some (sample_learned_globals, sample_learned_eeprom,
          [Some {| decode_type := 3; value := 0xFFA25D |}]).
Proof.
  exact (loop_setup_intro _ _ _ _ _ _ _ _ _ _
           sample_session_physical sample_session_emulated).
Qed.

Lemma eeprom_layout_witness :
  sample_learned_eeprom 0%nat = EEPROM_ID_VALUE
  ∧ sample_learned_eeprom 1%nat = phyIrType sample_learned_globals
  ∧ sample_learned_eeprom 2%nat = emuIrType sample_learned_globals
  ∧ sample_learned_eeprom (3 + 8 * 14 + 3)%nat
    = byte_of (get_code (irKeyCodes sample_learned_globals) 14 0) 3
  ∧ sample_learned_eeprom (3 + 8 * 14 + 4 + 3)%nat
    = byte_of (get_code (irKeyCodes sample_learned_globals) 14 1) 3.
Proof.
  apply (eeprom_layout sample_EEPROM_length globals_init (λ _, 0xFF) sample_script
           sample_learned_globals sample_learned_eeprom
           [Some {| decode_type := 3; value := 0xFFA25D |}] 14 3).
  - exact sample_setup_run.
  - vm_compute. lia.
  - lia.
Defined.

(** Restarting on the EEPROM a setup run has written gives back the globals
    of that run. *)
Lemma sample_restart :
  setup globals_init sample_learned_eeprom = sample_learned_globals.
Proof. vm_compute. reflexivity. Qed.

Lemma learned_protocol_persisted_witness :
  4 = decode_type sample_A + 1
  ∧ ∃ phy codes1 input1 emu codes2,
      learnIRKeyCodes (irKeyCodes globals_init) NUMBER_OF_KEYS 0 sample_script
      = Some (phy, codes1, input1)
      ∧ learnIRKeyCodes codes1 NUMBER_OF_KEYS 1 input1
        = Some (emu, codes2, [Some {| decode_type := 3; value := 0xFFA25D |}])
      ∧ phyIrType sample_learned_globals = phy
      ∧ emuIrType sample_learned_globals = emu
      ∧ eepromReadByte EEPROM_PHY_IR_TYPE_ADDRESS sample_learned_eeprom = phy
      ∧ eepromReadByte EEPROM_EMU_IR_TYPE_ADDRESS sample_learned_eeprom = emu.
Proof.
  apply (learned_protocol_persisted [0; 0; 0; 0] 2 0
           [Some sample_B] [None; Some {| decode_type := 7; value := 0xFFFFFFFF |}]
           sample_A [Some sample_A; Some sample_B; Some sample_A]
           4 [0x10; 0; 0x30; 0] [Some sample_A]
           sample_EEPROM_length globals_init (λ _, 0xFF) sample_script
           sample_learned_globals sample_learned_eeprom
           [Some {| decode_type := 3; value := 0xFFA25D |}]).
  - lia.
  - repeat constructor. by eexists.
  - repeat constructor; intros d Hd; [discriminate|]. by simplify_eq.
  - vm_compute. discriminate.
  - simpl. lia.
  - vm_compute. reflexivity.
  - exact sample_setup_run.
Defined.

Lemma learn_other_column_unchanged_witness :
  [0x10; 2; 0x30; 4] !! cell 1 (1 - 0) = [1; 2; 3; 4] !! cell 1 (1 - 0)
  ∧ get_code [0x10; 2; 0x30; 4] 1 (1 - 0) = get_code [1; 2; 3; 4] 1 (1 - 0)
  ∧ length [0x10; 2; 0x30; 4] = length [1; 2; 3; 4].
Proof.
  apply (learn_other_column_unchanged [1; 2; 3; 4] 2 0
           [None; Some sample_A; Some sample_B] 4 [0x10; 2; 0x30; 4] [] 1).
  - lia.
  - vm_compute. reflexivity.
Defined.

(** * Further properties of the code *)

(** ** EEPROM helpers *)

Lemma erase_from_spec i k (e : eeprom) a :
  erase_from i k e a = if bool_decide (i ≤ a < i + k)%nat then 0 else e a.
Proof.
  revert i e. induction k as [|k IH]; intros i e; cbn [erase_from].
  { by rewrite bool_decide_eq_false_2 by lia. }
  rewrite IH. destruct (decide (a = i)) as [->|Hne].
  - rewrite bool_decide_eq_false_2, bool_decide_eq_true_2 by lia.
    apply EEPROM_write_eq.
  - rewrite EEPROM_write_ne by done.
    destruct (decide (S i ≤ a < S i + k)%nat).
    + by rewrite !bool_decide_eq_true_2 by lia.
    + by rewrite !bool_decide_eq_false_2 by lia.
Qed.

(** X1. [eepromErase] sets every cell below [EEPROM.length()] to 0 and
    leaves the cells from there on alone; erasing twice gives what erasing
    once gives. *)
Theorem eepromErase_clears (EEPROM_length : nat) (e : eeprom) (a : nat) :
  eepromErase EEPROM_length e a
  = (if bool_decide (a < EEPROM_length)%nat then 0 else e a)
  ∧ eepromErase EEPROM_length (eepromErase EEPROM_length e) a
    = eepromErase EEPROM_length e a.
Proof.
  unfold eepromErase. rewrite !erase_from_spec.
  destruct (decide (a < EEPROM_length)%nat).
  - by rewrite !bool_decide_eq_true_2 by lia.
  - by rewrite !bool_decide_eq_false_2 by lia.
Qed.

(** X2. [eepromWriteLong] changes the four cells [a .. a + 3] and no other:
    cell [a + k] receives byte [k] of the value, which lies in 0..255 for any
    value. *)
Theorem eepromWriteLong_footprint (v : Z) (a : nat) (e : eeprom) (b : nat) :
  eepromWriteLong v a e b
  = (if bool_decide (a ≤ b < a + 4)%nat then byte_of v (b - a) else e b)
  ∧ 0 ≤ byte_of v (b - a) < 256.
Proof.
  split; [|apply byte_of_range].
  destruct (decide (a ≤ b < a + 4)%nat) as [Hin|Hout].
  - rewrite bool_decide_eq_true_2 by done.
    replace b with (a + (b - a))%nat at 1 by lia.
    apply eepromWriteLong_byte. lia.
  - rewrite bool_decide_eq_false_2 by done.
    apply eepromWriteLong_other. lia.
Qed.

Lemma byte_of_assembled b0 b1 b2 b3 k :
  0 ≤ b0 < 256 → 0 ≤ b1 < 256 → 0 ≤ b2 < 256 → 0 ≤ b3 < 256 → (k < 4)%nat →
  byte_of (b0 + 2 ^ 8 * b1 + 2 ^ 16 * b2 + 2 ^ 24 * b3) k
  = match k with 0%nat => b0 | 1%nat => b1 | 2%nat => b2 | _ => b3 end.
Proof.
  intros H0 H1 H2 H3 Hk. unfold byte_of.
  change (2 ^ 8) with 256. change (2 ^ 16) with 65536. change (2 ^ 24) with 16777216.
  destruct k as [|[|[|[|k]]]]; [| | | |lia]; simpl Z.of_nat; simpl Z.mul.
  - change (2 ^ 0) with 1. Z.div_mod_to_equations. lia.
  - change (2 ^ 8) with 256. Z.div_mod_to_equations. lia.
  - change (2 ^ 16) with 65536. Z.div_mod_to_equations. lia.
  - change (2 ^ 24) with 16777216. Z.div_mod_to_equations. lia.
Qed.

Lemma eepromReadLong_sum a (e : eeprom) :
  holds_bytes a 4 e →
  eepromReadLong a e
  = e a + 2 ^ 8 * e (a + 1)%nat + 2 ^ 16 * e (a + 2)%nat + 2 ^ 24 * e (a + 3)%nat.
Proof.
  intros Hb. unfold eepromReadLong, EEPROM_read. cbv zeta.
  apply assemble_bytes; apply Hb; lia.
Qed.

(** X3. On four cells that hold bytes [eepromReadLong] returns the
    little-endian number they spell, an [unsigned long], and writing that
    number back with [eepromWriteLong] leaves the whole EEPROM as it was. *)
Theorem eepromReadLong_decodes (a : nat) (e : eeprom) (b : nat) :
  holds_bytes a 4 e →
  eepromReadLong a e
  = e a + 2 ^ 8 * e (a + 1)%nat + 2 ^ 16 * e (a + 2)%nat + 2 ^ 24 * e (a + 3)%nat
  ∧ is_u32 (eepromReadLong a e)
  ∧ eepromWriteLong (eepromReadLong a e) a e b = e b.
Proof.
  intros Hb.
  pose proof (Hb a ltac:(lia)) as H0. pose proof (Hb (a + 1)%nat ltac:(lia)) as H1.
  pose proof (Hb (a + 2)%nat ltac:(lia)) as H2.
  pose proof (Hb (a + 3)%nat ltac:(lia)) as H3.
  rewrite (eepromReadLong_sum _ _ Hb). split_and!; [done| |].
  - unfold is_u32. change (2 ^ 8) with 256. change (2 ^ 16) with 65536.
    change (2 ^ 24) with 16777216. change (2 ^ 32) with 4294967296. lia.
  - destruct (decide (a ≤ b < a + 4)%nat) as [Hin|Hout];
      [|apply eepromWriteLong_other; lia].
    assert (∃ k, (k < 4)%nat ∧ b = (a + k)%nat) as (k & Hk & ->)
      by (exists (b - a)%nat; lia).
    rewrite eepromWriteLong_byte by done.
    rewrite byte_of_assembled by done.
    destruct k as [|[|[|[|k]]]]; [| | | |lia]; try done. f_equal. lia.
Qed.

Lemma byte_of_eepromReadLong a (e : eeprom) k :
  holds_bytes a 4 e → (k < 4)%nat → byte_of (eepromReadLong a e) k = e (a + k)%nat.
Proof.
  intros Hb Hk. rewrite (eepromReadLong_sum _ _ Hb).
  rewrite byte_of_assembled by (done || apply Hb; lia).
  destruct k as [|[|[|[|k]]]]; [| | | |lia]; try done. f_equal. lia.
Qed.

(** Every address of a table image is a byte of a row. *)
Lemma table_address d n :
  (d < 8 * n)%nat →
  ∃ j r k, (j < n)%nat ∧ (r < 2)%nat ∧ (k < 4)%nat ∧ d = (8 * j + 4 * r + k)%nat.
Proof.
  intros H. exists (d `div` 8)%nat, ((d `mod` 8) `div` 4)%nat, ((d `mod` 8) `mod` 4)%nat.
  pose proof (Nat.div_mod_eq d 8). pose proof (Nat.mod_upper_bound d 8 ltac:(lia)).
  pose proof (Nat.div_mod_eq (d `mod` 8) 4).
  pose proof (Nat.mod_upper_bound (d `mod` 8) 4 ltac:(lia)).
  split_and!; lia.
Qed.

Lemma eepromGetData_get_code base a n (e : eeprom) j r :
  (2 * n ≤ length a)%nat → (j < n)%nat → (r < 2)%nat →
  get_code (eepromGetData base a n e) j r = eepromReadLong (base + 8 * j + 4 * r) e.
Proof.
  intros Hlen Hj Hr. apply get_code_lookup. unfold eepromGetData.
  rewrite get_data_from_lookup by (unfold cell; lia).
  by rewrite bool_decide_eq_true_2 by lia.
Qed.

(** X4. For a base address that is a byte, and a row count that keeps the
    cell addresses within an [int], [eepromSetData] writes byte [k] of
    [codes[j][r]] to cell [base + 8 j + 4 r + k] for every row [j] below [n],
    and changes no cell below [base] or from [base + 8 n] on. *)
Theorem eepromSetData_footprint
    (base : nat) (codes : list Z) (n : nat) (e : eeprom) :
  (base < 256)%nat → Z.of_nat (base + 8 * n) ≤ 32768 →
  (∀ j r k, (j < n)%nat → (r < 2)%nat → (k < 4)%nat →
            eepromSetData base codes n e (base + 8 * j + 4 * r + k)%nat
            = byte_of (get_code codes j r) k)
  ∧ (∀ b, (b < base ∨ base + 8 * n ≤ b)%nat →
          eepromSetData base codes n e b = e b).
Proof.
  intros _ _. unfold eepromSetData. split.
  - intros j r k Hj Hr Hk. apply set_data_from_byte; lia.
  - intros b Hb. apply set_data_from_other. lia.
Qed.

(** X5. For a base address that is a byte, and a row count that keeps the
    cell addresses within an [int], [eepromGetData] on an array of at least
    [n] rows replaces entry [[j][r]] of every row [j] below [n] by the long
    read at [base + 8 j + 4 r], keeps the rows from [n] on and keeps the
    length. *)
Theorem eepromGetData_rows
    (base : nat) (a : list Z) (n : nat) (e : eeprom) :
  (base < 256)%nat → Z.of_nat (base + 8 * n) ≤ 32768 →
  (2 * n ≤ length a)%nat →
  (∀ j r, (r < 2)%nat →
          eepromGetData base a n e !! cell j r
          = if bool_decide (j < n)%nat
            then Some (eepromReadLong (base + 8 * j + 4 * r) e)
            else a !! cell j r)
  ∧ length (eepromGetData base a n e) = length a.
Proof.
  intros _ _ Hlen. unfold eepromGetData. split; [|apply length_get_data_from].
  intros j r Hr. rewrite get_data_from_lookup by (unfold cell; lia).
  destruct (decide (j < n)%nat).
  - by rewrite !bool_decide_eq_true_2 by lia.
  - by rewrite !bool_decide_eq_false_2 by lia.
Qed.

(** X6. For a base address that is a byte, and a row count that keeps the
    cell addresses within an [int]: if the [8 n] cells of the table image
    hold bytes, loading them with [eepromGetData] and saving the loaded table
    with [eepromSetData] at the same address leaves every cell of the EEPROM
    as it was. *)
Theorem eepromSetData_GetData
    (base : nat) (scratch : list Z) (n : nat) (e : eeprom) (b : nat) :
  (base < 256)%nat → Z.of_nat (base + 8 * n) ≤ 32768 →
  holds_bytes base (8 * n) e → (2 * n ≤ length scratch)%nat →
  eepromSetData base (eepromGetData base scratch n e) n e b = e b.
Proof.
  intros _ _ Hb Hlen.
  destruct (decide (base ≤ b < base + 8 * n)%nat) as [Hin|Hout];
    [|unfold eepromSetData; apply set_data_from_other; lia].
  destruct (table_address (b - base) n ltac:(lia)) as (j & r & k & Hj & Hr & Hk & Hd).
  replace b with (base + 8 * j + 4 * r + k)%nat by lia.
  unfold eepromSetData. rewrite set_data_from_byte by lia.
  rewrite eepromGetData_get_code by done.
  apply byte_of_eepromReadLong; [|done].
  intros c Hc. apply Hb. lia.
Qed.

(** ** Learning sessions, continued *)

Lemma get_set_code_ne codes i r v j r' :
  cell j r' ≠ cell i r → get_code (set_code codes i r v) j r' = get_code codes j r'.
Proof.
  intros Hne. apply get_code_lookup_eq. unfold set_code.
  by rewrite list_lookup_insert_ne.
Qed.

(** The loop of a session returns only when every slot is filled. *)
Lemma learn_loop_exit n r input st st' rest :
  learn_loop n r st input = Some (st', rest) → (n ≤ l_i st')%nat.
Proof.
  revert st. induction input as [|p input IH]; intros st Hrun.
  - cbn [learn_loop] in Hrun. destruct (decide (l_i st < n)%nat).
    + by rewrite bool_decide_eq_true_2 in Hrun.
    + rewrite bool_decide_eq_false_2 in Hrun by done. simplify_eq. lia.
  - destruct (decide (l_i st < n)%nat) as [Hlt|Hge].
    + rewrite learn_loop_waiting in Hrun by done. by eapply IH.
    + rewrite learn_loop_done in Hrun by lia. simplify_eq. lia.
Qed.

Lemma learn_poll_advance r st p : (l_i (learn_poll r st p) ≤ S (l_i st))%nat.
Proof.
  destruct (learn_poll_cases r st p) as [->|(d & _ & _ & _ & ->)]; cbn; lia.
Qed.

(** What the loop leaves unread is the end of its script, and it fills at
    most one slot per poll. *)
Lemma learn_loop_suffix n r input st st' rest :
  learn_loop n r st input = Some (st', rest) →
  ∃ used, input = used ++ rest ∧ (l_i st' ≤ l_i st + length used)%nat.
Proof.
  revert st. induction input as [|p input IH]; intros st Hrun.
  - cbn [learn_loop] in Hrun. destruct (decide (l_i st < n)%nat).
    + by rewrite bool_decide_eq_true_2 in Hrun.
    + rewrite bool_decide_eq_false_2 in Hrun by done. simplify_eq.
      exists []. split; [done|cbn; lia].
  - destruct (decide (l_i st < n)%nat) as [Hlt|Hge].
    + rewrite learn_loop_waiting in Hrun by done.
      destruct (IH _ Hrun) as (used & -> & Hle).
      exists (p :: used). split; [done|].
      pose proof (learn_poll_advance r st p). cbn [length]. lia.
    + rewrite learn_loop_done in Hrun by lia. simplify_eq.
      exists []. split; [done|cbn; lia].
Qed.

Lemma flush_Some input input1 :
  flush input = Some input1 →
  ∃ stale, Forall is_Some stale ∧ input = stale ++ None :: input1.
Proof.
  induction input as [|[d|] input IH]; cbn [flush]; intros H; [done| |].
  - destruct (IH H) as (stale & Hs & ->).
    exists (Some d :: stale). split; [|done]. constructor; [by eexists|done].
  - simplify_eq. exists []. by split.
Qed.


(** X7. Signals that are buffered when a session starts play no part in it:
    whatever decoded signals precede the first empty poll, the session gives
    the same result and leaves the same script as without them. *)
Theorem learn_ignores_stale
    (codes : list Z) (n r : nat) (stale input : ir_input) :
  Forall is_Some stale →
  learnIRKeyCodes codes n r (stale ++ None :: input)
  = learnIRKeyCodes codes n r (None :: input).
Proof.
  intros Hs. unfold learnIRKeyCodes. rewrite flush_stale by done. done.
Qed.


(** X9. A completed session has read a prefix of its script that is longer
    than the number of slots (one empty poll ends the flush, and every slot
    takes at least one poll), and it returns a byte. *)
Theorem learn_consumes
    (codes : list Z) (n r : nat) (input : ir_input)
    (ret : Z) (codes' : list Z) (rest : ir_input) :
  learnIRKeyCodes codes n r input = Some (ret, codes', rest) →
  0 ≤ ret < 256
  ∧ ∃ used, input = used ++ rest ∧ (n < length used)%nat.
Proof.
  intros Hrun.
  destruct (learnIRKeyCodes_Some _ _ _ _ _ _ _ Hrun) as (input1 & st & Hf & Hl & -> & _).
  split; [unfold to_byte; apply Z.mod_pos_bound; lia|].
  destruct (flush_Some _ _ Hf) as (stale & _ & ->).
  destruct (learn_loop_suffix _ _ _ _ _ _ Hl) as (used & -> & Hle).
  pose proof (learn_loop_exit _ _ _ _ _ _ Hl) as Hexit. cbn [learn_init l_i] in Hle.
  exists (stale ++ None :: used). split.
  - by rewrite <- app_assoc.
  - rewrite length_app. cbn [length]. lia.
Qed.

(** Two sessions on the same script that start from arrays of the same
    length make the same decisions: they end together, with the same
    protocol and the same unread script, and their arrays agree on the
    session's column and wherever they agreed before. *)
Lemma learn_loop_agree (A : nat → Prop) n r input st1 st2 :
  l_i st1 = l_i st2 → l_remoteType st1 = l_remoteType st2 →
  l_previousValue st1 = l_previousValue st2 →
  length (l_codes st1) = length (l_codes st2) →
  (∀ idx, A idx ∨ (∃ j, (j < l_i st1)%nat ∧ idx = cell j r) →
          l_codes st1 !! idx = l_codes st2 !! idx) →
  match learn_loop n r st1 input, learn_loop n r st2 input with
  | Some (st1', rest1), Some (st2', rest2) =>
      rest1 = rest2 ∧ l_remoteType st1' = l_remoteType st2'
      ∧ length (l_codes st1') = length (l_codes st2')
      ∧ ∀ idx, A idx ∨ (∃ j, (j < n)%nat ∧ idx = cell j r) →
               l_codes st1' !! idx = l_codes st2' !! idx
  | None, None => True
  | _, _ => False
  end.
Proof.
  revert st1 st2. induction input as [|p input IH]; intros st1 st2 Hi Ht Hp Hlen Hag.
  - cbn [learn_loop]. rewrite <- Hi. destruct (decide (l_i st1 < n)%nat).
    + by rewrite !bool_decide_eq_true_2 by done.
    + rewrite !bool_decide_eq_false_2 by done. split_and!; [done..|].
      intros idx [HA|(j & Hj & ->)]; apply Hag; [by left|]. right. exists j. split; [lia|done].
  - destruct (decide (l_i st1 < n)%nat) as [Hlt|Hge].
    + rewrite !learn_loop_waiting by lia.
      destruct p as [d|]; [|by apply IH].
      unfold learn_poll. rewrite <- Hp.
      destruct (bool_decide (value d ≠ ULONG_MINUS_ONE)
                && bool_decide (value d ≠ l_previousValue st1)); [|by apply IH].
      apply IH; cbn [l_i l_remoteType l_previousValue l_codes].
      * by rewrite Hi.
      * rewrite <- Hi. by rewrite Ht.
      * done.
      * by rewrite !length_set_code.
      * intros idx Hidx. unfold set_code. rewrite <- Hi, !list_lookup_insert, <- Hlen.
        destruct (decide (cell (l_i st1) r = idx ∧ (cell (l_i st1) r < length (l_codes st1))%nat))
          as [_|Hno]; [done|].
        destruct (decide (idx = cell (l_i st1) r)) as [->|Hne].
        { rewrite !lookup_ge_None_2; [done|rewrite <- Hlen|]; lia. }
        apply Hag. destruct Hidx as [HA|(j & Hj & ->)]; [by left|].
        right. exists j. split; [|done].
        destruct (decide (j = l_i st1)) as [->|]; [done|lia].
    + rewrite !learn_loop_done by lia. split_and!; [done..|].
      intros idx [HA|(j & Hj & ->)]; apply Hag; [by left|]. right. exists j. split; [lia|done].
Qed.

Lemma learnIRKeyCodes_agree (A : nat → Prop) codes1 codes2 n r input :
  length codes1 = length codes2 →
  (∀ idx, A idx → codes1 !! idx = codes2 !! idx) →
  match learnIRKeyCodes codes1 n r input, learnIRKeyCodes codes2 n r input with
  | Some (ret1, codes1', rest1), Some (ret2, codes2', rest2) =>
      ret1 = ret2 ∧ rest1 = rest2 ∧ length codes1' = length codes2'
      ∧ ∀ idx, A idx ∨ (∃ j, (j < n)%nat ∧ idx = cell j r) →
               codes1' !! idx = codes2' !! idx
  | None, None => True
  | _, _ => False
  end.
Proof.
  intros Hlen HA. unfold learnIRKeyCodes.
  destruct (flush input) as [input1|]; cbn [mbind option_bind]; [|done].
  pose proof (learn_loop_agree A n r input1 (learn_init codes1) (learn_init codes2)
                eq_refl eq_refl eq_refl Hlen) as H.
  destruct (learn_loop n r (learn_init codes1) input1) as [[st1 rest1]|],
           (learn_loop n r (learn_init codes2) input1) as [[st2 rest2]|];
    cbn [mbind option_bind]; try (apply H; intros idx [?|(j & Hj & _)]; [by apply HA|cbn in Hj; lia]).
  destruct H as (-> & Ht & Hl & Hag).
  { intros idx [?|(j & Hj & _)]; [by apply HA|cbn in Hj; lia]. }
  rewrite Ht. done.
Qed.

(** A completed session keeps the length of the array. *)
Lemma learnIRKeyCodes_length codes n r input ret codes' rest :
  learnIRKeyCodes codes n r input = Some (ret, codes', rest) →
  length codes' = length codes.
Proof.
  intros Hrun.
  destruct (learnIRKeyCodes_Some _ _ _ _ _ _ _ Hrun) as (input1 & st & _ & Hl & _ & ->).
  refine (learn_loop_ind (λ s, length (l_codes s) = length codes)
            n r _ input1 (learn_init codes) st rest _ Hl); [|done].
  intros st0 p H0 _. by rewrite learn_poll_length.
Qed.

(** Both columns together make up the array. *)
Lemma cell_column idx n :
  (idx < 2 * n)%nat →
  (∃ j, (j < n)%nat ∧ idx = cell j 0) ∨ (∃ j, (j < n)%nat ∧ idx = cell j 1).
Proof.
  intros H. pose proof (Nat.div_mod_eq idx 2).
  pose proof (Nat.mod_upper_bound idx 2 ltac:(lia)).
  destruct (decide (idx `mod` 2 = 0)%nat); [left|right];
    exists (idx `div` 2)%nat; unfold cell; lia.
Qed.

Lemma eepromSetData_ext base codes n (e1 e2 : eeprom) a :
  e1 a = e2 a → eepromSetData base codes n e1 a = eepromSetData base codes n e2 a.
Proof.
  intros He. unfold eepromSetData.
  destruct (decide (base ≤ a < base + 8 * n)%nat) as [Hin|Hout].
  - destruct (table_address (a - base) n ltac:(lia)) as (j & r & k & Hj & Hr & Hk & Hd).
    replace a with (base + 8 * j + 4 * r + k)%nat by lia.
    by rewrite !set_data_from_byte by lia.
  - by rewrite !set_data_from_other by lia.
Qed.


(** ** The setup branch, continued *)

(** X10. A setup run replaces the whole table: started on the same script
    with two tables of 15 rows, whatever they and the two EEPROMs hold, the
    two runs end together, leave the same globals and the same unread script,
    and leave EEPROMs that agree on the image and on every erased cell. *)
Theorem relearn_forgets_old_table
    (EEPROM_length : nat) (st1 st2 : globals) (e1 e2 : eeprom) (input : ir_input) :
  length (irKeyCodes st1) = (2 * NUMBER_OF_KEYS)%nat →
  length (irKeyCodes st2) = (2 * NUMBER_OF_KEYS)%nat →
  match loop_setup EEPROM_length st1 e1 input,
        loop_setup EEPROM_length st2 e2 input with
  | Some (st1', e1', rest1), Some (st2', e2', rest2) =>
      st1' = st2' ∧ rest1 = rest2
      ∧ ∀ a, (a < EEPROM_length ∨ a < EEPROM_DATA_ADDRESS + 8 * NUMBER_OF_KEYS)%nat →
             e1' a = e2' a
  | None, None => True
  | _, _ => False
  end.
Proof.
  intros Hl1 Hl2. unfold loop_setup. cbv zeta.
  pose proof (learnIRKeyCodes_agree (λ _, False) (irKeyCodes st1) (irKeyCodes st2)
                NUMBER_OF_KEYS 0 input ltac:(congruence) ltac:(done)) as H1.
  destruct (learnIRKeyCodes (irKeyCodes st1) NUMBER_OF_KEYS 0 input)
    as [[[phy1 c1] in1]|] eqn:E1;
  destruct (learnIRKeyCodes (irKeyCodes st2) NUMBER_OF_KEYS 0 input)
    as [[[phy2 c2] in2]|] eqn:E2; cbn [mbind option_bind];
    [|destruct H1|destruct H1|exact I].
  destruct H1 as (-> & -> & Hlen & Hag0).
  pose proof (learnIRKeyCodes_agree
                (λ idx, ∃ j, (j < NUMBER_OF_KEYS)%nat ∧ idx = cell j 0)
                c1 c2 NUMBER_OF_KEYS 1 in2 Hlen
                ltac:(intros idx Hidx; apply Hag0; by right)) as H2.
  destruct (learnIRKeyCodes c1 NUMBER_OF_KEYS 1 in2) as [[[emu1 d1] rest1]|] eqn:E3;
  destruct (learnIRKeyCodes c2 NUMBER_OF_KEYS 1 in2) as [[[emu2 d2] rest2]|] eqn:E4;
    cbn [mbind option_bind]; [|destruct H2|destruct H2|exact I].
  destruct H2 as (-> & -> & Hlen' & Hag1).
  assert (length d1 = (2 * NUMBER_OF_KEYS)%nat) as Hd1.
  { rewrite (learnIRKeyCodes_length _ _ _ _ _ _ _ E3),
      (learnIRKeyCodes_length _ _ _ _ _ _ _ E1). done. }

  assert (d1 = d2) as ->.
  { apply list_eq. intros idx.
    destruct (decide (idx < 2 * NUMBER_OF_KEYS)%nat) as [Hlt|Hge].
    - apply Hag1. destruct (cell_column idx NUMBER_OF_KEYS Hlt); [by left|by right].
    - rewrite !lookup_ge_None_2; [done|rewrite <- Hlen'|]; lia. }
  split; [done|]. split; [done|]. intros a Ha.
  unfold eepromSetData.
  destruct (decide (EEPROM_DATA_ADDRESS ≤ a < EEPROM_DATA_ADDRESS + 8 * NUMBER_OF_KEYS)%nat)
    as [Hin|Hout].
  { destruct (table_address (a - EEPROM_DATA_ADDRESS) NUMBER_OF_KEYS ltac:(lia))
      as (j & r & k & Hj & Hr & Hk & Hd).
    replace a with (EEPROM_DATA_ADDRESS + 8 * j + 4 * r + k)%nat by lia.
    by rewrite !set_data_from_byte by lia. }
  rewrite !set_data_from_other by lia.
  unfold eepromWriteByte, eepromErase.
  destruct (decide (a = EEPROM_EMU_IR_TYPE_ADDRESS)) as [->|?];
    [by rewrite !EEPROM_write_eq|].
  rewrite !(EEPROM_write_ne EEPROM_EMU_IR_TYPE_ADDRESS) by done.
  destruct (decide (a = EEPROM_PHY_IR_TYPE_ADDRESS)) as [->|?];
    [by rewrite !EEPROM_write_eq|].
  rewrite !(EEPROM_write_ne EEPROM_PHY_IR_TYPE_ADDRESS) by done.
  destruct (decide (a = EEPROM_ID_ADDRESS)) as [->|?];
    [by rewrite !EEPROM_write_eq|].
  rewrite !(EEPROM_write_ne EEPROM_ID_ADDRESS) by done.
  rewrite !erase_from_spec.
  assert (a < EEPROM_length)%nat as HL.
  { destruct Ha as [?|Ha]; [done|]. exfalso.
    unfold EEPROM_DATA_ADDRESS, EEPROM_EMU_IR_TYPE_ADDRESS,
      EEPROM_PHY_IR_TYPE_ADDRESS, EEPROM_ID_ADDRESS in *. lia. }
  by rewrite !bool_decide_eq_true_2 by lia.
Qed.

(** What a session stores comes from its script: if every decoded value of
    the script has a property, so has every slot of the session's column
    afterwards, and so has every cell that had it before. *)
Lemma learn_loop_good (P : Z → Prop) (A : nat → Prop) n r input st st' rest :
  (r < 2)%nat → (2 * n ≤ length (l_codes st))%nat →
  Forall (λ p, ∀ d, p = Some d → P (value d)) input →
  (∀ idx, A idx ∨ (∃ j, (j < l_i st)%nat ∧ idx = cell j r) →
          ∃ v, l_codes st !! idx = Some v ∧ P v) →
  learn_loop n r st input = Some (st', rest) →
  ∀ idx, A idx ∨ (∃ j, (j < n)%nat ∧ idx = cell j r) →
         ∃ v, l_codes st' !! idx = Some v ∧ P v.
Proof.
  intros Hr. revert st.
  induction input as [|p input IH]; intros st Hlen Hin Hgood Hrun.
  - cbn [learn_loop] in Hrun. destruct (decide (l_i st < n)%nat).
    + by rewrite bool_decide_eq_true_2 in Hrun.
    + rewrite bool_decide_eq_false_2 in Hrun by done. simplify_eq.
      intros idx [HA|(j & Hj & ->)]; apply Hgood; [by left|].
      right. exists j. split; [lia|done].
  - inversion_clear Hin as [|?? Hp Hin'].
    destruct (decide (l_i st < n)%nat) as [Hlt|Hge].
    + rewrite learn_loop_waiting in Hrun by done.
      destruct (learn_poll_cases r st p) as [Heq|(d & -> & _ & _ & Heq)];
        rewrite Heq in Hrun; [by eapply IH|].
      eapply IH; [|done| |exact Hrun]; cbn [l_i l_codes].
      * by rewrite length_set_code.
      * intros idx Hidx. unfold set_code.
        destruct (decide (idx = cell (l_i st) r)) as [->|Hne].
        { exists (value d). split; [|by apply Hp].
          apply list_lookup_insert_eq. unfold cell. lia. }
        rewrite list_lookup_insert_ne by done. apply Hgood.
        destruct Hidx as [HA|(j & Hj & ->)]; [by left|].
        right. exists j. split; [|done].
        destruct (decide (j = l_i st)) as [->|]; [done|lia].
    + rewrite learn_loop_done in Hrun by lia. simplify_eq.
      intros idx [HA|(j & Hj & ->)]; apply Hgood; [by left|].
      right. exists j. split; [lia|done].
Qed.

Lemma learnIRKeyCodes_good (P : Z → Prop) (A : nat → Prop)
    codes n r input ret codes' rest :
  (r < 2)%nat → (2 * n ≤ length codes)%nat →
  Forall (λ p, ∀ d, p = Some d → P (value d)) input →
  (∀ idx, A idx → ∃ v, codes !! idx = Some v ∧ P v) →
  learnIRKeyCodes codes n r input = Some (ret, codes', rest) →
  Forall (λ p, ∀ d, p = Some d → P (value d)) rest
  ∧ ∀ idx, A idx ∨ (∃ j, (j < n)%nat ∧ idx = cell j r) →
           ∃ v, codes' !! idx = Some v ∧ P v.
Proof.
  intros Hr Hlen Hin HA Hrun.
  destruct (learnIRKeyCodes_Some _ _ _ _ _ _ _ Hrun) as (input1 & st & Hf & Hl & _ & ->).
  destruct (flush_Some _ _ Hf) as (stale & _ & ->).
  apply Forall_app in Hin as [_ Hin]. inversion_clear Hin as [|?? _ Hin'].
  rename Hin' into Hin. split.
  - destruct (learn_loop_suffix _ _ _ _ _ _ Hl) as (used & -> & _).
    by apply Forall_app in Hin as [_ Hin].
  - eapply (learn_loop_good P A n r input1 (learn_init codes)); [done|done|done| |done].
    intros idx [?|(j & Hj & _)]; [by apply HA|cbn in Hj; lia].
Qed.

(** X11. A table learnt from 32-bit codes survives a restart: [setup], run
    on the EEPROM a completed setup branch has left, loads the table and the
    two protocol bytes that branch left in the globals. *)
Theorem setup_restores_learned_table
    (EEPROM_length : nat) (st : globals) (e : eeprom) (input : ir_input)
    (st' : globals) (e' : eeprom) (rest : ir_input) (st0 : globals) :
  length (irKeyCodes st) = (2 * NUMBER_OF_KEYS)%nat →
  length (irKeyCodes st0) = (2 * NUMBER_OF_KEYS)%nat →
  u32_script input →
  loop_setup EEPROM_length st e input = Some (st', e', rest) →
  setup st0 e'
  = {| irKeyCodes := irKeyCodes st'; eepromIdValue := eepromIdValue st';
       phyIrType := phyIrType st'; emuIrType := emuIrType st';
       setupMode := setupMode st0 |}.
Proof.
  intros Hl Hl0 Hin Hrun.
  destruct (loop_setup_Some _ _ _ _ _ _ _ Hrun)
    as (phy & c1 & in1 & emu & c2 & H1 & H2 & -> & ->).
  cbn [irKeyCodes eepromIdValue phyIrType emuIrType].
  pose proof (learnIRKeyCodes_length _ _ _ _ _ _ _ H1) as Hc1.
  pose proof (learnIRKeyCodes_length _ _ _ _ _ _ _ H2) as Hc2.
  destruct (learnIRKeyCodes_good is_u32 (λ _, False)
              (irKeyCodes st) NUMBER_OF_KEYS 0 input phy c1 in1
              ltac:(lia) ltac:(lia) Hin ltac:(done) H1) as [Hin1 Hg1].
  destruct (learnIRKeyCodes_good is_u32
              (λ idx, ∃ j, (j < NUMBER_OF_KEYS)%nat ∧ idx = cell j 0)
              c1 NUMBER_OF_KEYS 1 in1 emu c2 rest
              ltac:(lia) ltac:(lia) Hin1
              ltac:(intros idx Hidx; apply Hg1; by right) H2) as [_ Hg2].
  assert (Forall is_u32 c2) as Hall.
  { apply Forall_lookup. intros idx x Hx.
    assert (idx < 2 * NUMBER_OF_KEYS)%nat as Hlt
      by (apply lookup_lt_Some in Hx; lia).
    destruct (Hg2 idx) as (v & Hv & HP);
      [destruct (cell_column idx NUMBER_OF_KEYS Hlt); [by left|by right]|].
    by simplify_eq. }
  unfold setup. cbv zeta.
  unfold eepromReadByte, EEPROM_read.
  rewrite !eepromSetData_header by (vm_compute; lia).
  unfold eepromWriteByte.
  rewrite (EEPROM_write_ne EEPROM_EMU_IR_TYPE_ADDRESS EEPROM_ID_ADDRESS) by done.
  rewrite (EEPROM_write_ne EEPROM_PHY_IR_TYPE_ADDRESS EEPROM_ID_ADDRESS) by done.
  rewrite (EEPROM_write_eq EEPROM_ID_ADDRESS).
  rewrite bool_decide_eq_true_2 by done.
  rewrite (EEPROM_write_ne EEPROM_EMU_IR_TYPE_ADDRESS EEPROM_PHY_IR_TYPE_ADDRESS) by done.
  rewrite (EEPROM_write_eq EEPROM_PHY_IR_TYPE_ADDRESS).
  rewrite (EEPROM_write_eq EEPROM_EMU_IR_TYPE_ADDRESS).
  rewrite eepromGetData_SetData by (done || lia). done.
Qed.

Lemma learnIRKeyCodes_byte codes n r input ret codes' rest :
  learnIRKeyCodes codes n r input = Some (ret, codes', rest) → 0 ≤ ret < 256.
Proof.
  intros Hrun.
  destruct (learnIRKeyCodes_Some _ _ _ _ _ _ _ Hrun) as (_ & st & _ & _ & -> & _).
  unfold to_byte. apply Z.mod_pos_bound. lia.
Qed.

(** X12. After a completed setup branch every cell of the image (the 123
    cells from address 0) holds a byte; every cell behind the image is 0 if
    it lies below [EEPROM.length()] and is untouched otherwise. *)
Theorem setup_branch_eeprom
    (EEPROM_length : nat) (st : globals) (e : eeprom) (input : ir_input)
    (st' : globals) (e' : eeprom) (rest : ir_input) (a : nat) :
  loop_setup EEPROM_length st e input = Some (st', e', rest) →
  if bool_decide (a < EEPROM_DATA_ADDRESS + 8 * NUMBER_OF_KEYS)%nat
  then 0 ≤ e' a < 256
  else e' a = if bool_decide (a < EEPROM_length)%nat then 0 else e a.
Proof.
  intros Hrun.
  destruct (loop_setup_Some _ _ _ _ _ _ _ Hrun)
    as (phy & c1 & in1 & emu & c2 & H1 & H2 & -> & ->).
  pose proof (learnIRKeyCodes_byte _ _ _ _ _ _ _ H1) as Hphy.
  pose proof (learnIRKeyCodes_byte _ _ _ _ _ _ _ H2) as Hemu.
  unfold eepromSetData.
  destruct (decide (EEPROM_DATA_ADDRESS ≤ a < EEPROM_DATA_ADDRESS + 8 * NUMBER_OF_KEYS)%nat)
    as [Hin|Hout].
  { rewrite bool_decide_eq_true_2 by lia.
    destruct (table_address (a - EEPROM_DATA_ADDRESS) NUMBER_OF_KEYS ltac:(lia))
      as (j & r & k & Hj & Hr & Hk & Hd).
    replace a with (EEPROM_DATA_ADDRESS + 8 * j + 4 * r + k)%nat by lia.
    rewrite set_data_from_byte by lia. apply byte_of_range. }
  rewrite set_data_from_other by lia. unfold eepromWriteByte, eepromErase.
  destruct (decide (a = EEPROM_EMU_IR_TYPE_ADDRESS)) as [->|?].
  { rewrite bool_decide_eq_true_2 by (vm_compute; lia). by rewrite EEPROM_write_eq. }
  rewrite (EEPROM_write_ne EEPROM_EMU_IR_TYPE_ADDRESS) by done.
  destruct (decide (a = EEPROM_PHY_IR_TYPE_ADDRESS)) as [->|?].
  { rewrite bool_decide_eq_true_2 by (vm_compute; lia). by rewrite EEPROM_write_eq. }
  rewrite (EEPROM_write_ne EEPROM_PHY_IR_TYPE_ADDRESS) by done.
  destruct (decide (a = EEPROM_ID_ADDRESS)) as [->|?].
  { rewrite bool_decide_eq_true_2 by (vm_compute; lia). rewrite EEPROM_write_eq.
    unfold EEPROM_ID_VALUE. lia. }
  rewrite (EEPROM_write_ne EEPROM_ID_ADDRESS) by done.
  rewrite erase_from_spec.
  assert (EEPROM_DATA_ADDRESS + 8 * NUMBER_OF_KEYS ≤ a)%nat.
  { unfold EEPROM_DATA_ADDRESS, EEPROM_EMU_IR_TYPE_ADDRESS,
      EEPROM_PHY_IR_TYPE_ADDRESS, EEPROM_ID_ADDRESS in *. lia. }
  rewrite (bool_decide_eq_false_2 (a < EEPROM_DATA_ADDRESS + 8 * NUMBER_OF_KEYS)%nat) by lia.
  destruct (decide (a < EEPROM_length)%nat).
  - by rewrite !bool_decide_eq_true_2 by lia.
  - by rewrite !bool_decide_eq_false_2 by lia.
Qed.

(** ** Dispatch, continued *)

(** X13. A dispatch iteration does one of three things: nothing at all,
    when no signal was decoded or its raw code is 0; only [irrecv.resume],
    when the code matches no row; or one transmit call with the emulated
    code of the matching row, followed by [enableIRIn] and [resume].  It
    never transmits without a match and never transmits twice. *)
Theorem dispatch_shape (JVC SAMSUNG : Z) (st : globals) (p : option decode_results) :
  (dispatch JVC SAMSUNG st p = []
   ∧ (p = None ∨ ∃ d, p = Some d ∧ value d ≤ 0))
  ∨ (∃ d, p = Some d ∧ value d > 0
          ∧ lookup (irKeyCodes st) NUMBER_OF_KEYS (value d) = None
          ∧ dispatch JVC SAMSUNG st p = [Resume])
  ∨ (∃ d i sent, p = Some d ∧ value d > 0
          ∧ lookup (irKeyCodes st) NUMBER_OF_KEYS (value d) = Some i
          ∧ (sent = SendJVC (get_code (irKeyCodes st) i 1) 16 0
             ∨ sent = SendSAMSUNG (get_code (irKeyCodes st) i 1) 32)
          ∧ dispatch JVC SAMSUNG st p = [sent; EnableIRIn; Resume]).
Proof.
  destruct p as [d|].
  - destruct (decide (value d > 0)) as [Hpos|Hzero].
    + destruct (lookup (irKeyCodes st) NUMBER_OF_KEYS (value d)) as [i|] eqn:Hl.
      * right. right.
        destruct (send_transmits JVC SAMSUNG (emuIrType st - 1)
                    (get_code (irKeyCodes st) i 1)) as [Hs|Hs];
          eexists d, i, _; (split_and!; [done|done|done| |
            rewrite (dispatch_hit _ _ _ _ _ Hpos Hl), Hs; reflexivity]); auto.
      * right. left. exists d. split_and!; [done..|].
        unfold dispatch. cbv zeta. rewrite bool_decide_eq_true_2 by done.
        by rewrite Hl.
    + left. split; [|right; exists d; split; [done|lia]].
      unfold dispatch. cbv zeta. by rewrite bool_decide_eq_false_2.
  - left. split; [|by left]. unfold dispatch. cbv zeta.
    by rewrite bool_decide_eq_false_2.
Qed.

Lemma lookup_distinct_aux codes n i :
  distinct_physical codes n → (i < n)%nat →
  lookup codes n (get_code codes i 0) = Some i.
Proof.
  intros Hd Hi. unfold lookup.
  pose proof (lookup_from_spec codes (get_code codes i 0) n 0) as H.
  destruct (lookup_from codes (get_code codes i 0) 0 n) as [m|].
  - destruct H as (Hm & Hc & _). f_equal. apply Hd; [lia|done|done].
  - exfalso. apply (H i); [lia|done].
Qed.

(** X14. On a table whose physical codes are pairwise different the scan
    finds every row by its own physical code. *)
Theorem lookup_distinct (codes : list Z) (n i : nat) :
  distinct_physical codes n → (i < n)%nat →
  lookup codes n (get_code codes i 0) = Some i.
Proof.
  intros Hd Hi.
  pose proof (lookup_from_spec codes (get_code codes i 0) n 0) as H.
  unfold lookup. destruct (lookup_from codes (get_code codes i 0) 0 n) as [m|].
  - destruct H as (Hm & Hc & Hlow). f_equal.
    destruct (decide (m = i)) as [|Hne]; [done|].
    apply Hd; [lia|done|done].
  - exfalso. apply (H i); [lia|done].
Qed.

(** X15. Translation: in operation mode, on a table with pairwise different
    physical codes, receiving the non-zero physical code of row [i] makes
    [loop] transmit the emulated code of row [i], with [sendSAMSUNG] and 32
    bits when the stored emulated protocol is SAMSUNG and with [sendJVC] and
    16 bits otherwise; globals and EEPROM stay as they were. *)
Theorem loop_translates
    (JVC SAMSUNG : Z) (EEPROM_length : nat)
    (st : globals) (e : eeprom) (d : decode_results) (input : ir_input) (i : nat) :
  JVC ≠ SAMSUNG →
  setupMode st = false →
  distinct_physical (irKeyCodes st) NUMBER_OF_KEYS →
  (i < NUMBER_OF_KEYS)%nat →
  value d = get_code (irKeyCodes st) i 0 →
  value d > 0 →
  loop JVC SAMSUNG EEPROM_length st e (Some d :: input)
  = Some (st, e,
          [if bool_decide (emuIrType st - 1 = SAMSUNG)
           then SendSAMSUNG (get_code (irKeyCodes st) i 1) 32
           else SendJVC (get_code (irKeyCodes st) i 1) 16 0;
           EnableIRIn; Resume],
          input).
Proof.
  intros HJS Hm Hd Hi Hv Hpos.
  rewrite loop_operating by done.
  assert (lookup (irKeyCodes st) NUMBER_OF_KEYS (value d) = Some i) as Hl
    by (rewrite Hv; by apply lookup_distinct_aux).
  rewrite (dispatch_hit _ _ _ _ _ Hpos Hl). unfold send.
  destruct (decide (emuIrType st - 1 = SAMSUNG)) as [HS|HS].
  - rewrite (bool_decide_eq_false_2 (emuIrType st - 1 = JVC)) by congruence.
    by rewrite !bool_decide_eq_true_2.
  - rewrite (bool_decide_eq_false_2 (emuIrType st - 1 = SAMSUNG)) by done.
    by case_bool_decide.
Qed.

(** X16. A setup request is served once: when [loop] is called after
    [setupModeOn] and its setup branch completes, the mode flag is cleared
    and the EEPROM id is valid, so the next call of [loop] is a plain
    dispatch iteration that leaves globals and EEPROM alone. *)
Theorem setup_request_served_once
    (JVC SAMSUNG : Z) (EEPROM_length : nat)
    (st : globals) (e : eeprom) (input : ir_input)
    (st1 : globals) (e1 : eeprom) (ev1 : list ir_event)
    (p : option decode_results) (rest : ir_input) :
  loop JVC SAMSUNG EEPROM_length (setupModeOn st) e input
  = Some (st1, e1, ev1, p :: rest) →
  setupMode st1 = false
  ∧ eepromIdValue st1 = EEPROM_ID_VALUE
  ∧ eepromReadByte EEPROM_ID_ADDRESS e1 = EEPROM_ID_VALUE
  ∧ loop JVC SAMSUNG EEPROM_length st1 e1 (p :: rest)
    = Some (st1, e1, dispatch JVC SAMSUNG st1 p, rest).
Proof.
  unfold loop at 1. cbn [setupModeOn setupMode]. intros Hrun.
  destruct (loop_setup EEPROM_length (setupModeOn st) e input)
    as [[[st2 e2] in2]|] eqn:Hs; cbn [mbind option_bind] in Hrun; [|done].
  destruct in2 as [|q in2]; [done|]. simplify_eq.
  destruct (loop_setup_Some _ _ _ _ _ _ _ Hs)
    as (phy & c1 & in1 & emu & c2 & _ & _ & -> & ->).
  split_and!; [done|done| |by apply loop_operating].
  unfold eepromReadByte, EEPROM_read.
  rewrite eepromSetData_header by (vm_compute; lia).
  unfold eepromWriteByte. rewrite !EEPROM_write_ne by done. apply EEPROM_write_eq.
Qed.

(** ** Learning sessions: what is written, and when a session returns *)

Lemma learn_loop_no_key n r codes input :
  (0 < n)%nat → Forall no_key input →
  learn_loop n r (learn_init codes) input = None.
Proof.
  intros Hn. induction 1 as [|p input Hp _ IH].
  - cbn [learn_loop]. by rewrite bool_decide_eq_true_2 by (cbn; lia).
  - rewrite learn_loop_waiting by (cbn; lia). by rewrite learn_poll_no_key.
Qed.

(** A run of fresh keys fills the open slots in order and touches no other
    cell. *)
Lemma learn_loop_fresh n r ds st rest :
  (r < 2)%nat → (2 * n ≤ length (l_codes st))%nat →
  (l_i st + length ds = n)%nat → fresh_keys (l_previousValue st) ds →
  ∃ st', learn_loop n r st (map Some ds ++ rest) = Some (st', rest)
         ∧ length (l_codes st') = length (l_codes st)
         ∧ (∀ k d, ds !! k = Some d →
                   l_codes st' !! cell (l_i st + k) r = Some (value d))
         ∧ (∀ idx, (∀ k, (k < length ds)%nat → idx ≠ cell (l_i st + k) r) →
                   l_codes st' !! idx = l_codes st !! idx).
Proof.
  intros Hr. revert st. induction ds as [|d ds IH]; intros st Hlen Hn Hfresh.
  - exists st. cbn [map app length] in *. split_and!; [|done| |done].
    + apply learn_loop_done. lia.
    + intros k d Hk. by rewrite lookup_nil in Hk.
  - cbn [map app length fresh_keys] in *. destruct Hfresh as (H1 & H2 & Hfresh).
    rewrite learn_loop_waiting by lia. rewrite learn_poll_accept by done.
    set (st1 := {| l_i := S (l_i st); l_remoteType := _; l_previousValue := value d;
                   l_codes := set_code (l_codes st) (l_i st) r (value d) |}).
    destruct (IH st1) as (st' & Hrun & Hl & Hfill & Hframe);
      [subst st1; cbn [l_codes]; rewrite length_set_code; lia
      |subst st1; cbn [l_i]; lia|exact Hfresh|].
    subst st1. cbn [l_i l_codes] in *. rewrite length_set_code in Hl.
    exists st'. split_and!; [done|done| |].
    + intros [|k] d' Hk.
      * cbn in Hk. simplify_eq. replace (l_i st + 0)%nat with (l_i st) by lia.
        rewrite Hframe by (intros k _; unfold cell; lia).
        unfold set_code. apply list_lookup_insert_eq. unfold cell. lia.
      * cbn in Hk. replace (l_i st + S k)%nat with (S (l_i st) + k)%nat by lia.
        by apply Hfill.
    + intros idx Hidx. rewrite Hframe.
      * unfold set_code. apply list_lookup_insert_ne.
        specialize (Hidx 0%nat ltac:(lia)).
        replace (l_i st + 0)%nat with (l_i st) in Hidx by lia. done.
      * intros k Hk. specialize (Hidx (S k) ltac:(lia)).
        replace (l_i st + S k)%nat with (S (l_i st) + k)%nat in Hidx by lia. done.
Qed.

Lemma learnIRKeyCodes_fresh codes n r ds rest :
  (r < 2)%nat → (2 * n ≤ length codes)%nat →
  length ds = n → fresh_keys ULONG_MINUS_ONE ds →
  ∃ ret codes',
    learnIRKeyCodes codes n r (None :: map Some ds ++ rest) = Some (ret, codes', rest)
    ∧ length codes' = length codes
    ∧ (∀ k d, ds !! k = Some d → get_code codes' k r = value d)
    ∧ (∀ idx, (∀ k, (k < n)%nat → idx ≠ cell k r) → codes' !! idx = codes !! idx).
Proof.
  intros Hr Hlen Hds Hfresh.
  destruct (learn_loop_fresh n r ds (learn_init codes) rest Hr Hlen
              ltac:(cbn; lia) Hfresh) as (st' & Hrun & Hl & Hfill & Hframe).
  unfold learnIRKeyCodes. cbn [flush mbind option_bind]. rewrite Hrun.
  cbn [mbind option_bind]. eexists _, _. split_and!; [done|done| |].
  - intros k d Hk. apply get_code_lookup. by apply (Hfill k d).
  - intros idx Hidx. apply Hframe. intros k Hk. cbn. apply Hidx. lia.
Qed.

(** X17. A completed session writes no cell other than the slots
    [codes[j][r]] with [j] below [numberOfKeys]: the other column and all
    rows from [numberOfKeys] on keep their values. *)
Theorem learn_footprint
    (codes : list Z) (n r : nat) (input : ir_input)
    (ret : Z) (codes' : list Z) (rest : ir_input) (idx : nat) :
  learnIRKeyCodes codes n r input = Some (ret, codes', rest) →
  (∀ j, (j < n)%nat → idx ≠ cell j r) →
  codes' !! idx = codes !! idx.
Proof.
  intros Hrun Hidx.
  destruct (learnIRKeyCodes_Some _ _ _ _ _ _ _ Hrun) as (input1 & st & _ & Hl & _ & ->).
  refine (learn_loop_ind (λ s, l_codes s !! idx = codes !! idx)
            n r _ input1 (learn_init codes) st rest _ Hl); [|done].
  intros st0 p H0 Hlt. rewrite learn_poll_lookup_ne; [done|]. by apply Hidx.
Qed.

(** X18. There is no timeout: a session on at least one slot never returns
    on a script in which no poll brings a code other than [0xFFFFFFFF]. *)
Theorem learn_needs_a_key (codes : list Z) (n r : nat) (input : ir_input) :
  (0 < n)%nat → Forall no_key input →
  learnIRKeyCodes codes n r input = None.
Proof.
  intros Hn Hin. unfold learnIRKeyCodes.
  destruct (flush input) as [input1|] eqn:Hf; cbn [mbind option_bind]; [|done].
  destruct (flush_Some _ _ Hf) as (stale & _ & ->).
  apply Forall_app in Hin as [_ Hin]. inversion_clear Hin as [|?? _ Hin'].
  by rewrite learn_loop_no_key.
Qed.

(** X19. A session that finds the buffer empty and then receives one fresh
    key per slot (none [0xFFFFFFFF], none equal to the one before it)
    returns after the last of them, with key [k] stored in slot [k] of its
    column and the rest of the script unread. *)
Theorem learn_fills_in_order
    (codes : list Z) (n r : nat) (ds : list decode_results) (rest : ir_input) :
  (r < 2)%nat → (2 * n ≤ length codes)%nat →
  length ds = n → fresh_keys ULONG_MINUS_ONE ds →
  ∃ ret codes',
    learnIRKeyCodes codes n r (None :: map Some ds ++ rest) = Some (ret, codes', rest)
    ∧ length codes' = length codes
    ∧ ∀ k d, ds !! k = Some d → get_code codes' k r = value d.
Proof.
  intros Hr Hlen Hds Hfresh.
  destruct (learnIRKeyCodes_fresh codes n r ds rest Hr Hlen Hds Hfresh)
    as (ret & codes' & Hrun & Hl & Hfill & _).
  by exists ret, codes'.
Qed.

Lemma loop_after_setup JVC SAMSUNG EEPROM_length st (e : eeprom) input st1 e1 p rest :
  setupMode st = true →
  loop_setup EEPROM_length st e input = Some (st1, e1, p :: rest) →
  loop JVC SAMSUNG EEPROM_length st e input
  = Some (st1, e1, dispatch JVC SAMSUNG st1 p, rest).
Proof. intros Hm Hs. unfold loop. rewrite Hm, Hs. done. Qed.

(** ** Learning and then translating *)

Lemma learnIRKeyCodes_fresh_ret codes n r d ds rest ret codes' rest' :
  fresh_keys ULONG_MINUS_ONE (d :: ds) →
  learnIRKeyCodes codes n r (None :: map Some (d :: ds) ++ rest)
  = Some (ret, codes', rest') →
  (0 < n)%nat → ret = to_byte (decode_type d + 1).
Proof.
  intros (Hd & _ & _) Hrun Hn.
  apply (learnIRKeyCodes_first_key codes n r [] [] d (map Some ds ++ rest)
           ret codes' rest'); [done|constructor|constructor|done|exact Hrun].
Qed.

(** The setup branch on a script of fresh keys, in full. *)
Lemma loop_setup_fresh EEPROM_length st (e : eeprom) ps es rest :
  length (irKeyCodes st) = (2 * NUMBER_OF_KEYS)%nat →
  length ps = NUMBER_OF_KEYS → length es = NUMBER_OF_KEYS →
  fresh_keys ULONG_MINUS_ONE ps → fresh_keys ULONG_MINUS_ONE es →
  ∃ st' e',
    loop_setup EEPROM_length st e
      (None :: map Some ps ++ None :: map Some es ++ rest)
    = Some (st', e', rest)
    ∧ setupMode st' = false
    ∧ length (irKeyCodes st') = (2 * NUMBER_OF_KEYS)%nat
    ∧ (∀ k p, ps !! k = Some p → get_code (irKeyCodes st') k 0 = value p)
    ∧ (∀ k q, es !! k = Some q → get_code (irKeyCodes st') k 1 = value q)
    ∧ (∀ q0, es !! 0%nat = Some q0 → emuIrType st' = to_byte (decode_type q0 + 1)).
Proof.
  intros Hl Hps Hes Hfp Hfe.
  destruct (learnIRKeyCodes_fresh (irKeyCodes st) NUMBER_OF_KEYS 0 ps
              (None :: map Some es ++ rest) ltac:(lia) ltac:(lia) Hps Hfp)
    as (phy & c1 & H1 & Hl1 & Hfill1 & _).
  destruct (learnIRKeyCodes_fresh c1 NUMBER_OF_KEYS 1 es rest
              ltac:(lia) ltac:(lia) Hes Hfe)
    as (emu & c2 & H2 & Hl2 & Hfill2 & Hframe2).
  eexists _, _. split; [exact (loop_setup_intro _ _ _ _ _ _ _ _ _ _ H1 H2)|].
  cbn [irKeyCodes setupMode emuIrType]. split_and!; [done|lia| |done|].
  - intros k p Hp. rewrite <- (Hfill1 k p Hp). apply get_code_lookup_eq.
    apply Hframe2. intros j _. unfold cell. lia.
  - intros q0 Hq0. destruct es as [|q es']; [done|]. cbn in Hq0. simplify_eq.
    apply (learnIRKeyCodes_fresh_ret _ _ _ _ _ _ _ _ _ Hfe H2).
    unfold NUMBER_OF_KEYS. lia.
Qed.

(** X20. A setup run that receives fifteen fresh keys of the physical remote
    and then fifteen fresh keys of the emulated remote completes, and row [k]
    of the table it leaves pairs the [k]-th physical code with the [k]-th
    emulated code. *)
Theorem loop_setup_learns
    (EEPROM_length : nat) (st : globals) (e : eeprom)
    (ps es : list decode_results) (rest : ir_input) :
  length (irKeyCodes st) = (2 * NUMBER_OF_KEYS)%nat →
  length ps = NUMBER_OF_KEYS → length es = NUMBER_OF_KEYS →
  fresh_keys ULONG_MINUS_ONE ps → fresh_keys ULONG_MINUS_ONE es →
  ∃ st' e',
    loop_setup EEPROM_length st e
      (None :: map Some ps ++ None :: map Some es ++ rest)
    = Some (st', e', rest)
    ∧ ∀ k p q, ps !! k = Some p → es !! k = Some q →
               get_code (irKeyCodes st') k 0 = value p
               ∧ get_code (irKeyCodes st') k 1 = value q.
Proof.
  intros Hl Hps Hes Hfp Hfe.
  destruct (loop_setup_fresh EEPROM_length st e ps es rest Hl Hps Hes Hfp Hfe)
    as (st' & e' & Hrun & _ & _ & Hphy & Hemu & _).
  exists st', e'. split; [done|]. intros k p q Hp Hq. split; eauto.
Qed.

(** X21. Learning and translating in one call of [loop]: with the mode flag
    set, fifteen fresh keys of a physical remote with pairwise different
    codes, then fifteen fresh keys of a remote decoded as SAMSUNG, and then
    key [k] of the physical remote again, [loop] learns the table and
    transmits the code of key [k] of the emulated remote with [sendSAMSUNG]
    and 32 bits. *)
Theorem learn_then_translate
    (JVC SAMSUNG : Z) (EEPROM_length : nat) (st : globals) (e : eeprom)
    (ps es : list decode_results) (rest : ir_input)
    (k : nat) (p q : decode_results) :
  JVC ≠ SAMSUNG → 0 ≤ SAMSUNG + 1 < 256 →
  setupMode st = true →
  length (irKeyCodes st) = (2 * NUMBER_OF_KEYS)%nat →
  length ps = NUMBER_OF_KEYS → length es = NUMBER_OF_KEYS →
  fresh_keys ULONG_MINUS_ONE ps → fresh_keys ULONG_MINUS_ONE es →
  (∀ i j a b, ps !! i = Some a → ps !! j = Some b → value a = value b → i = j) →
  (∀ q0, es !! 0%nat = Some q0 → decode_type q0 = SAMSUNG) →
  ps !! k = Some p → es !! k = Some q → value p > 0 →
  ∃ st' e',
    loop JVC SAMSUNG EEPROM_length st e
      (None :: map Some ps ++ None :: map Some es ++ Some p :: rest)
    = Some (st', e', [SendSAMSUNG (value q) 32; EnableIRIn; Resume], rest).
Proof.
  intros HJS HS Hm Hl Hps Hes Hfp Hfe Hdist Hty Hp Hq Hpos.
  destruct (loop_setup_fresh EEPROM_length st e ps es (Some p :: rest)
              Hl Hps Hes Hfp Hfe)
    as (st' & e' & Hrun & Hm' & Hl' & Hphy & Hemu & Htag).
  exists st', e'. rewrite (loop_after_setup _ _ _ _ _ _ _ _ _ _ Hm Hrun).
  do 2 f_equal.
  assert (distinct_physical (irKeyCodes st') NUMBER_OF_KEYS) as Hd.
  { intros i j Hi Hj Heq.
    destruct (lookup_lt_is_Some_2 ps i ltac:(lia)) as [a Ha].
    destruct (lookup_lt_is_Some_2 ps j ltac:(lia)) as [b Hb].
    rewrite (Hphy i a Ha), (Hphy j b Hb) in Heq. by apply (Hdist i j a b). }
  assert ((k < NUMBER_OF_KEYS)%nat) as Hk by (apply lookup_lt_Some in Hp; lia).
  assert (lookup (irKeyCodes st') NUMBER_OF_KEYS (value p) = Some k) as Hlk.
  { rewrite <- (Hphy k p Hp). by apply lookup_distinct_aux. }
  rewrite (dispatch_hit _ _ _ _ _ Hpos Hlk), (Hemu k q Hq).
  destruct (lookup_lt_is_Some_2 es 0 ltac:(unfold NUMBER_OF_KEYS in *; lia)) as [q0 Hq0].
  rewrite (Htag q0 Hq0), (Hty q0 Hq0). unfold to_byte. rewrite Z.mod_small by lia.
  unfold send. replace (SAMSUNG + 1 - 1) with SAMSUNG by lia.
  rewrite (bool_decide_eq_false_2 (SAMSUNG = JVC)) by congruence.
  by rewrite bool_decide_eq_true_2.
Qed.

(** ** Debounce within a session *)

(** C9 (as the code has it). While a session waits for a key, the polls
    [A, A, A, B], with [A] and [B] two different codes other than
    [0xFFFFFFFF] and [A] not the code stored for the preceding slot, are
    accepted once per distinct value: the first [A] is stored in the open
    slot and advances the session by one slot, the repeats of [A] change
    nothing, and [B] is stored in the next slot and advances by one more; if
    the open slot was the last one the session returns after the first [A]
    and reads none of the other three. *)
Theorem learn_debounce
    (n r : nat) (codes : list Z) (st : learn_state)
    (A B : decode_results) (rest : ir_input) :
  (r < 2)%nat → (2 * n ≤ length codes)%nat →
  learn_reach n r codes st → (l_i st < n)%nat →
  value A ≠ ULONG_MINUS_ONE → value B ≠ ULONG_MINUS_ONE → value B ≠ value A →
  ((0 < l_i st)%nat → value A ≠ get_code (l_codes st) (l_i st - 1) r) →
  let st1 := learn_poll r st (Some A) in
  let st2 := learn_poll r st1 (Some B) in
  l_i st1 = S (l_i st)
  ∧ get_code (l_codes st1) (l_i st) r = value A
  ∧ learn_poll r st1 (Some A) = st1
  ∧ ((S (l_i st) < n)%nat →
     l_i st2 = S (S (l_i st))
     ∧ get_code (l_codes st2) (l_i st) r = value A
     ∧ get_code (l_codes st2) (S (l_i st)) r = value B)
  ∧ learn_loop n r st (Some A :: Some A :: Some A :: Some B :: rest)
    = if bool_decide (S (l_i st) < n)%nat then learn_loop n r st2 rest
      else Some (st1, Some A :: Some A :: Some B :: rest).
Proof.
  intros Hr Hlen Hreach Hi HA1 HB1 HB2 HAprev st1 st2.
  destruct (learn_reach_previous _ _ _ _ Hr Hlen Hreach) as (Hl & _ & Hp0 & Hp1).
  assert (value A ≠ l_previousValue st) as HA2.
  { destruct (decide (l_i st = 0)%nat) as [H0|H0].
    - by rewrite Hp0.
    - rewrite <- Hp1 by lia. apply HAprev. lia. }
  assert (st1 = {| l_i := S (l_i st);
                   l_remoteType := if bool_decide (l_i st = 0%nat) then decode_type A
                                   else l_remoteType st;
                   l_previousValue := value A;
                   l_codes := set_code (l_codes st) (l_i st) r (value A) |}) as Hst1.
  { subst st1. by apply learn_poll_accept. }
  assert (learn_poll r st1 (Some A) = st1) as Hrep.
  { apply learn_poll_reject. right. by rewrite Hst1. }
  assert (st2 = {| l_i := S (l_i st1);
                   l_remoteType := if bool_decide (l_i st1 = 0%nat) then decode_type B
                                   else l_remoteType st1;
                   l_previousValue := value B;
                   l_codes := set_code (l_codes st1) (l_i st1) r (value B) |}) as Hst2.
  { subst st2. apply learn_poll_accept; [done|]. by rewrite Hst1. }
  assert (cell (l_i st) r < length (l_codes st))%nat as Hc by (unfold cell; lia).
  split_and!.
  - by rewrite Hst1.
  - rewrite Hst1. cbn [l_codes]. by apply get_set_code.
  - done.
  - intros Hnext. rewrite Hst2, Hst1. cbn [l_i l_codes]. split_and!; [done| |].
    + rewrite get_set_code_ne by (unfold cell; lia). by apply get_set_code.
    + apply get_set_code. rewrite length_set_code. unfold cell. lia.
  - rewrite learn_loop_waiting by lia. fold st1.
    destruct (decide (S (l_i st) < n)%nat) as [Hlast|Hlast].
    + rewrite bool_decide_eq_true_2 by done.
      assert (l_i st1 < n)%nat by (rewrite Hst1; cbn; lia).
      rewrite learn_loop_waiting, Hrep by done.
      rewrite learn_loop_waiting, Hrep by done.
      rewrite learn_loop_waiting by done. done.
    + rewrite bool_decide_eq_false_2 by done.
      apply learn_loop_done. rewrite Hst1. cbn. lia.
Qed.

(** ** Start-up *)

Lemma learnIRKeyCodes_one_poll codes n r q :
  (0 < n)%nat → learnIRKeyCodes codes n r [q] = None.
Proof.
  intros Hn. unfold learnIRKeyCodes. destruct q as [d|]; cbn [flush mbind option_bind];
    [done|].
  cbn [learn_loop]. by rewrite bool_decide_eq_true_2 by (cbn; lia).
Qed.

(** C8. [setup] loads the table and the two protocol bytes from the EEPROM
    exactly when the byte at offset 0 is 0x99.  With that byte, every entry
    [[i][r]] of the table is the long stored at [3 + 8 i + 4 r], the protocol
    bytes are those at offsets 1 and 2, the mode flag stays off and the first
    call of [loop] is a dispatch iteration.  With any other byte, table and
    protocol bytes stay as they were, the mode flag is set, and the first
    call of [loop] learns: it does not dispatch the signal it is given, and
    on a script of fresh keys it fills the table from the keys, writes the id
    byte and clears the flag before it dispatches. *)
Theorem setup_loads_iff_id_valid
    (JVC SAMSUNG : Z) (EEPROM_length : nat)
    (st : globals) (valid invalid : eeprom)
    (ps es : list decode_results) (q : option decode_results) (rest : ir_input)
    (i r : nat) :
  eepromReadByte EEPROM_ID_ADDRESS valid = EEPROM_ID_VALUE →
  eepromReadByte EEPROM_ID_ADDRESS invalid ≠ EEPROM_ID_VALUE →
  setupMode st = false →
  length (irKeyCodes st) = (2 * NUMBER_OF_KEYS)%nat →
  (i < NUMBER_OF_KEYS)%nat → (r < 2)%nat →
  length ps = NUMBER_OF_KEYS → length es = NUMBER_OF_KEYS →
  fresh_keys ULONG_MINUS_ONE ps → fresh_keys ULONG_MINUS_ONE es →
  (get_code (irKeyCodes (setup st valid)) i r
   = eepromReadLong (3 + 8 * i + 4 * r) valid
   ∧ phyIrType (setup st valid) = valid 1%nat
   ∧ emuIrType (setup st valid) = valid 2%nat
   ∧ setupMode (setup st valid) = false
   ∧ loop JVC SAMSUNG EEPROM_length (setup st valid) valid (q :: rest)
     = Some (setup st valid, valid, dispatch JVC SAMSUNG (setup st valid) q, rest))
  ∧ (irKeyCodes (setup st invalid) = irKeyCodes st
     ∧ phyIrType (setup st invalid) = phyIrType st
     ∧ emuIrType (setup st invalid) = emuIrType st
     ∧ setupMode (setup st invalid) = true
     ∧ loop JVC SAMSUNG EEPROM_length (setup st invalid) invalid [q] = None
     ∧ ∃ st' (e' : eeprom),
         loop JVC SAMSUNG EEPROM_length (setup st invalid) invalid
           (None :: map Some ps ++ None :: map Some es ++ q :: rest)
         = Some (st', e', dispatch JVC SAMSUNG st' q, rest)
         ∧ setupMode st' = false
         ∧ e' 0%nat = EEPROM_ID_VALUE
         ∧ ∀ k a b, ps !! k = Some a → es !! k = Some b →
                    get_code (irKeyCodes st') k 0 = value a
                    ∧ get_code (irKeyCodes st') k 1 = value b).
Proof.
  intros Hv Hi Hm Hl Hrow Hr Hps Hes Hfp Hfe.
  assert (setup st valid
          = {| irKeyCodes := eepromGetData EEPROM_DATA_ADDRESS (irKeyCodes st)
                               NUMBER_OF_KEYS valid;
               eepromIdValue := EEPROM_ID_VALUE;
               phyIrType := eepromReadByte EEPROM_PHY_IR_TYPE_ADDRESS valid;
               emuIrType := eepromReadByte EEPROM_EMU_IR_TYPE_ADDRESS valid;
               setupMode := setupMode st |}) as Hval.
  { unfold setup. cbv zeta. rewrite bool_decide_eq_true_2 by done. by rewrite Hv. }
  assert (setup st invalid
          = {| irKeyCodes := irKeyCodes st;
               eepromIdValue := eepromReadByte EEPROM_ID_ADDRESS invalid;
               phyIrType := phyIrType st; emuIrType := emuIrType st;
               setupMode := true |}) as Hinv.
  { unfold setup. cbv zeta. by rewrite bool_decide_eq_false_2. }
  split.
  - rewrite Hval. cbn [irKeyCodes phyIrType emuIrType setupMode].
    split_and!; [|done|done|done|].
    + rewrite eepromGetData_get_code by (done || lia). done.
    + apply loop_operating. done.
  - rewrite Hinv. cbn [irKeyCodes phyIrType emuIrType setupMode].
    split_and!; [done|done|done|done| |].
    + unfold loop, loop_setup. cbn [setupMode irKeyCodes]. cbv zeta.
      rewrite learnIRKeyCodes_one_poll by (unfold NUMBER_OF_KEYS; lia). done.
    + match goal with |- context [loop _ _ _ ?s _ _] => set (st0 := s) end.
      destruct (loop_setup_fresh EEPROM_length st0 invalid ps es (q :: rest)
                  Hl Hps Hes Hfp Hfe)
        as (st' & e' & Hrun & Hm' & _ & Hphy & Hemu & _).
      exists st', e'. split_and!.
      * by apply loop_after_setup.
      * done.
      * destruct (loop_setup_Some _ _ _ _ _ _ _ Hrun)
          as (phy & c1 & in1 & emu & c2 & _ & _ & _ & ->).
        rewrite eepromSetData_header by (vm_compute; lia).
        unfold eepromWriteByte. rewrite !EEPROM_write_ne by done.
        apply EEPROM_write_eq.
      * intros k a b Ha Hb. split; eauto.
Qed.

(** ** Instances of the further properties *)

Lemma eepromReadLong_decodes_witness :
  eepromReadLong 3 (λ _, 0x5A)
  = 0x5A + 2 ^ 8 * 0x5A + 2 ^ 16 * 0x5A + 2 ^ 24 * 0x5A
  ∧ is_u32 (eepromReadLong 3 (λ _, 0x5A))
  ∧ eepromWriteLong (eepromReadLong 3 (λ _, 0x5A)) 3 (λ _, 0x5A) 4%nat = 0x5A.
Proof.
  apply (eepromReadLong_decodes 3 (λ _, 0x5A) 4).
  intros b Hb. lia.
Defined.

Lemma learn_ignores_stale_witness :
  learnIRKeyCodes [0; 0; 0; 0] 2 0
    ([Some sample_B; Some sample_A] ++ None :: [Some sample_A; Some sample_B])
  = learnIRKeyCodes [0; 0; 0; 0] 2 0 (None :: [Some sample_A; Some sample_B]).
Proof.
  apply (learn_ignores_stale [0; 0; 0; 0] 2 0 [Some sample_B; Some sample_A]
           [Some sample_A; Some sample_B]).
  repeat constructor; by eexists.
Defined.


Lemma learn_consumes_witness :
  0 ≤ 4 < 256
  ∧ ∃ used, [None; Some sample_A; Some sample_B; Some sample_A]
            = used ++ [Some sample_A]
            ∧ (2 < length used)%nat.
Proof.
  apply (learn_consumes [0; 0; 0; 0] 2 0
           [None; Some sample_A; Some sample_B; Some sample_A]
           4 [0x10; 0; 0x30; 0] [Some sample_A]).
  vm_compute. reflexivity.
Defined.

Lemma relearn_forgets_old_table_witness :
  match loop_setup sample_EEPROM_length globals_init (λ _, 0) sample_script,
        loop_setup sample_EEPROM_length (sample_globals 4) (λ _, 0xFF) sample_script with
  | Some (st1', e1', rest1), Some (st2', e2', rest2) =>
      st1' = st2' ∧ rest1 = rest2
      ∧ ∀ a, (a < sample_EEPROM_length
              ∨ a < EEPROM_DATA_ADDRESS + 8 * NUMBER_OF_KEYS)%nat →
             e1' a = e2' a
  | None, None => True
  | _, _ => False
  end.
Proof.
  apply (relearn_forgets_old_table sample_EEPROM_length globals_init (sample_globals 4)
           (λ _, 0) (λ _, 0xFF) sample_script).
  - reflexivity.
  - reflexivity.
Defined.

Lemma u32_script_sample_keys ty base :
  is_u32 base → is_u32 (base + 14) → u32_script (sample_keys ty base).
Proof.
  unfold is_u32. intros H0 H14. unfold u32_script, sample_keys.
  apply Forall_forall. intros p Hp d ->.
  apply in_map_iff in Hp as (k & Hk & Hin). simplify_eq.
  apply in_seq in Hin. cbn [value]. unfold is_u32, NUMBER_OF_KEYS in *. lia.
Qed.

Lemma u32_script_sample_script : u32_script sample_script.
Proof.
  unfold sample_script. constructor; [done|].
  apply Forall_app. split; [apply u32_script_sample_keys; unfold is_u32; lia|].
  constructor; [done|].
  apply Forall_app. split; [apply u32_script_sample_keys; unfold is_u32; lia|].
  constructor; [|constructor]. intros d Hd. simplify_eq. unfold is_u32. cbn. lia.
Qed.

Lemma setup_restores_learned_table_witness :
  setup globals_init sample_learned_eeprom
  = {| irKeyCodes := irKeyCodes sample_learned_globals;
       eepromIdValue := eepromIdValue sample_learned_globals;
       phyIrType := phyIrType sample_learned_globals;
       emuIrType := emuIrType sample_learned_globals;
       setupMode := setupMode globals_init |}.
Proof.
  apply (setup_restores_learned_table sample_EEPROM_length globals_init (λ _, 0xFF)
           sample_script sample_learned_globals sample_learned_eeprom
           [Some {| decode_type := 3; value := 0xFFA25D |}] globals_init).
  - reflexivity.
  - reflexivity.
  - exact u32_script_sample_script.
  - exact sample_setup_run.
Defined.

Lemma setup_branch_eeprom_witness :
  if bool_decide (5 < EEPROM_DATA_ADDRESS + 8 * NUMBER_OF_KEYS)%nat
  then 0 ≤ sample_learned_eeprom 5%nat < 256
  else sample_learned_eeprom 5%nat
       = if bool_decide (5 < sample_EEPROM_length)%nat then 0 else 0xFF.
Proof.
  exact (setup_branch_eeprom sample_EEPROM_length globals_init (λ _, 0xFF)
           sample_script sample_learned_globals sample_learned_eeprom
           [Some {| decode_type := 3; value := 0xFFA25D |}] 5 sample_setup_run).
Defined.

Lemma lookup_distinct_witness :
  lookup [0x10; 0x20; 0x30; 0x40] 2 (get_code [0x10; 0x20; 0x30; 0x40] 1 0) = Some 1%nat.
Proof.
  apply (lookup_distinct [0x10; 0x20; 0x30; 0x40] 2 1); [|lia].
  intros i j Hi Hj.
  destruct i as [|[|i]]; destruct j as [|[|j]]; try lia; vm_compute; congruence.
Defined.

Lemma sample_learned_physical i :
  (i < NUMBER_OF_KEYS)%nat → get_code sample_learned i 0 = 0xFFA25D + Z.of_nat i.
Proof.
  unfold NUMBER_OF_KEYS. intros Hi.
  do 15 (destruct i as [|i]; [reflexivity|]). lia.
Qed.

Lemma sample_learned_distinct : distinct_physical sample_learned NUMBER_OF_KEYS.
Proof.
  intros i j Hi Hj. rewrite !sample_learned_physical by done. lia.
Qed.

Lemma loop_translates_witness :
  loop sample_JVC sample_SAMSUNG sample_EEPROM_length sample_learned_globals (λ _, 0)
    [Some {| decode_type := 3; value := 0xFFA25D + 3 |}]
  = Some (sample_learned_globals, λ _, 0,
          [if bool_decide (emuIrType sample_learned_globals - 1 = sample_SAMSUNG)
           then SendSAMSUNG (get_code (irKeyCodes sample_learned_globals) 3 1) 32
           else SendJVC (get_code (irKeyCodes sample_learned_globals) 3 1) 16 0;
           EnableIRIn; Resume],
          []).
Proof.
  apply (loop_translates sample_JVC sample_SAMSUNG sample_EEPROM_length
           sample_learned_globals (λ _, 0)
           {| decode_type := 3; value := 0xFFA25D + 3 |} [] 3).
  - vm_compute. discriminate.
  - reflexivity.
  - exact sample_learned_distinct.
  - vm_compute. lia.
  - vm_compute. reflexivity.
  - vm_compute. reflexivity.
Defined.

Lemma sample_session_physical_next :
  learnIRKeyCodes (irKeyCodes (setupModeOn globals_init)) NUMBER_OF_KEYS 0
    (sample_script ++ [None])
  = Some (4, sample_physical, sample_script_emulated ++ [None]).
Proof. vm_compute. reflexivity. Qed.

Lemma sample_session_emulated_next :
  learnIRKeyCodes sample_physical NUMBER_OF_KEYS 1 (sample_script_emulated ++ [None])
  = Some (8, sample_learned, [Some {| decode_type := 3; value := 0xFFA25D |}; None]).
Proof. vm_compute. reflexivity. Qed.

Lemma sample_request_run :
  loop sample_JVC sample_SAMSUNG sample_EEPROM_length
    (setupModeOn globals_init) (λ _, 0xFF) (sample_script ++ [None])
  = Some (sample_learned_globals, sample_learned_eeprom,
          dispatch sample_JVC sample_SAMSUNG sample_learned_globals
            (Some {| decode_type := 3; value := 0xFFA25D |}),
          [None]).
Proof.
  apply loop_after_setup; [reflexivity|].
  exact (loop_setup_intro _ _ _ _ _ _ _ _ _ _
           sample_session_physical_next sample_session_emulated_next).
Qed.

Lemma setup_request_served_once_witness :
  setupMode sample_learned_globals = false
  ∧ eepromIdValue sample_learned_globals = EEPROM_ID_VALUE
  ∧ eepromReadByte EEPROM_ID_ADDRESS sample_learned_eeprom = EEPROM_ID_VALUE
  ∧ loop sample_JVC sample_SAMSUNG sample_EEPROM_length
      sample_learned_globals sample_learned_eeprom [None]
    = Some (sample_learned_globals, sample_learned_eeprom,
            dispatch sample_JVC sample_SAMSUNG sample_learned_globals None, []).
Proof.
  exact (setup_request_served_once sample_JVC sample_SAMSUNG sample_EEPROM_length
           globals_init (λ _, 0xFF) (sample_script ++ [None])
           sample_learned_globals sample_learned_eeprom
           (dispatch sample_JVC sample_SAMSUNG sample_learned_globals
              (Some {| decode_type := 3; value := 0xFFA25D |}))
           None [] sample_request_run).
Defined.

Lemma learn_footprint_witness :
  [0x10; 2; 0x30; 4; 5; 6] !! 4%nat = [1; 2; 3; 4; 5; 6] !! 4%nat.
Proof.
  apply (learn_footprint [1; 2; 3; 4; 5; 6] 2 0 [None; Some sample_A; Some sample_B]
           4 [0x10; 2; 0x30; 4; 5; 6] [] 4).
  - vm_compute. reflexivity.
  - intros j Hj. unfold cell. lia.
Defined.

Lemma learn_needs_a_key_witness :
  learnIRKeyCodes [0; 0; 0; 0] 2 0
    [None; None; Some {| decode_type := 3; value := 0xFFFFFFFF |}; None]
  = None.
Proof.
  apply (learn_needs_a_key [0; 0; 0; 0] 2 0
           [None; None; Some {| decode_type := 3; value := 0xFFFFFFFF |}; None]).
  - lia.
  - repeat constructor; intros d Hd; by simplify_eq.
Defined.

Lemma learn_fills_in_order_witness :
  ∃ ret codes',
    learnIRKeyCodes [0; 0; 0; 0] 2 1
      (None :: map Some [sample_A; sample_B] ++ [Some sample_A])
    = Some (ret, codes', [Some sample_A])
    ∧ length codes' = length [0; 0; 0; 0]
    ∧ ∀ k d, [sample_A; sample_B] !! k = Some d → get_code codes' k 1 = value d.
Proof.
  apply (learn_fills_in_order [0; 0; 0; 0] 2 1 [sample_A; sample_B] [Some sample_A]).
  - lia.
  - simpl. lia.
  - reflexivity.
  - cbn [fresh_keys]. split_and!; vm_compute; (discriminate || exact I).
Defined.

Lemma fresh_keys_seq ty base m k prev :
  0 ≤ base → base + Z.of_nat (k + m) < ULONG_MINUS_ONE →
  prev ≠ base + Z.of_nat k →
  fresh_keys prev
    (map (λ j : nat, {| decode_type := ty; value := base + Z.of_nat j |}) (seq k m)).
Proof.
  intros H0. revert k prev. induction m as [|m IH]; intros k prev Hn Hprev; [done|].
  cbn [seq map fresh_keys value]. split_and!.
  - lia.
  - congruence.
  - apply IH; [|lia]. replace (S k + m)%nat with (k + S m)%nat by lia. done.
Qed.

Lemma fresh_keys_sample_ps : fresh_keys ULONG_MINUS_ONE sample_ps.
Proof.
  apply (fresh_keys_seq 3 0xFFA25D NUMBER_OF_KEYS 0 ULONG_MINUS_ONE);
    [lia|vm_compute; reflexivity|vm_compute; discriminate].
Qed.

Lemma fresh_keys_sample_es : fresh_keys ULONG_MINUS_ONE sample_es.
Proof.
  apply (fresh_keys_seq 7 0xE0E040BF NUMBER_OF_KEYS 0 ULONG_MINUS_ONE);
    [lia|vm_compute; reflexivity|vm_compute; discriminate].
Qed.

Lemma loop_setup_learns_witness :
  ∃ st' (e' : eeprom),
    loop_setup sample_EEPROM_length globals_init (λ _, 0xFF)
      (None :: map Some sample_ps ++ None :: map Some sample_es ++ [None])
    = Some (st', e', [None])
    ∧ ∀ k p q, sample_ps !! k = Some p → sample_es !! k = Some q →
               get_code (irKeyCodes st') k 0 = value p
               ∧ get_code (irKeyCodes st') k 1 = value q.
Proof.
  apply (loop_setup_learns sample_EEPROM_length globals_init (λ _, 0xFF)
           sample_ps sample_es [None]).
  - reflexivity.
  - reflexivity.
  - reflexivity.
  - exact fresh_keys_sample_ps.
  - exact fresh_keys_sample_es.
Defined.

Lemma sample_ps_value i a :
  sample_ps !! i = Some a → value a = 0xFFA25D + Z.of_nat i.
Proof.
  unfold sample_ps, NUMBER_OF_KEYS.
  do 15 (destruct i as [|i]; [intros H; cbn in H; by simplify_eq|]).
  intros H. cbn in H. done.
Qed.

Lemma learn_then_translate_witness :
  ∃ st' (e' : eeprom),
    loop sample_JVC sample_SAMSUNG sample_EEPROM_length
      (setupModeOn globals_init) (λ _, 0xFF)
      (None :: map Some sample_ps ++ None :: map Some sample_es
         ++ Some {| decode_type := 3; value := 0xFFA25D + 3 |} :: [])
    = Some (st', e',
            [SendSAMSUNG (value {| decode_type := 7; value := 0xE0E040BF + 3 |}) 32;
             EnableIRIn; Resume],
            []).
Proof.
  apply (learn_then_translate sample_JVC sample_SAMSUNG sample_EEPROM_length
           (setupModeOn globals_init) (λ _, 0xFF) sample_ps sample_es [] 3
           {| decode_type := 3; value := 0xFFA25D + 3 |}
           {| decode_type := 7; value := 0xE0E040BF + 3 |}).
  - vm_compute. discriminate.
  - unfold sample_SAMSUNG. lia.
  - reflexivity.
  - reflexivity.
  - reflexivity.
  - reflexivity.
  - exact fresh_keys_sample_ps.
  - exact fresh_keys_sample_es.
  - intros i j a b Ha Hb Heq.
    rewrite (sample_ps_value i a Ha), (sample_ps_value j b Hb) in Heq. lia.
  - intros q0 Hq0. cbn in Hq0. by simplify_eq.
  - reflexivity.
  - reflexivity.
  - vm_compute. reflexivity.
Defined.

(** ** A slot whose predecessor holds the same code *)

(** In a session on two slots whose slot 0 took [sample_A], the polls
    [A, A, A, B] of slot 1's wait do not fill the slot with [A]: the three
    [A]'s are rejected and the slot is filled with [B]. *)
Lemma first_signal_rejected_after_same_code :
  let st1 := learn_poll 0 (learn_init [0; 0; 0; 0]) (Some sample_A) in
  l_i st1 = 1%nat
  ∧ get_code (l_codes st1) 0 0 = value sample_A
  ∧ learn_poll 0 st1 (Some sample_A) = st1
  ∧ get_code (l_codes (learn_poll 0 st1 (Some sample_A))) 1 0 = 0
  ∧ l_i (learn_poll 0 st1 (Some sample_B)) = 2%nat
  ∧ get_code (l_codes (learn_poll 0 st1 (Some sample_B))) 1 0 = value sample_B
  ∧ learnIRKeyCodes [0; 0; 0; 0] 2 0
      [None; Some sample_A; Some sample_A; Some sample_A; Some sample_A; Some sample_B]
    = Some (4, [0x10; 0; 0x30; 0], []).
Proof. split_and!; reflexivity. Qed.

Lemma learn_debounce_witness :
  let st1 := learn_poll 0 (learn_init [0; 0; 0; 0]) (Some sample_A) in
  let st2 := learn_poll 0 st1 (Some sample_B) in
  l_i st1 = S (l_i (learn_init [0; 0; 0; 0]))
  ∧ get_code (l_codes st1) (l_i (learn_init [0; 0; 0; 0])) 0 = value sample_A
  ∧ learn_poll 0 st1 (Some sample_A) = st1
  ∧ ((S (l_i (learn_init [0; 0; 0; 0]%Z)) < 2)%nat →
     l_i st2 = S (S (l_i (learn_init [0; 0; 0; 0])))
     ∧ get_code (l_codes st2) (l_i (learn_init [0; 0; 0; 0])) 0 = value sample_A
     ∧ get_code (l_codes st2) (S (l_i (learn_init [0; 0; 0; 0]))) 0 = value sample_B)
  ∧ learn_loop 2 0 (learn_init [0; 0; 0; 0])
      [Some sample_A; Some sample_A; Some sample_A; Some sample_B]
    = if bool_decide (S (l_i (learn_init [0; 0; 0; 0]%Z)) < 2)%nat
      then learn_loop 2 0 st2 []
      else Some (st1, [Some sample_A; Some sample_A; Some sample_B]).
Proof.
  apply (learn_debounce 2 0 [0; 0; 0; 0] (learn_init [0; 0; 0; 0])
           sample_A sample_B []).
  - lia.
  - simpl. lia.
  - apply reach_init.
  - simpl. lia.
  - vm_compute. discriminate.
  - vm_compute. discriminate.
  - vm_compute. discriminate.
  - simpl. lia.
Defined.

Lemma setup_loads_iff_id_valid_witness :
  (get_code (irKeyCodes (setup globals_init sample_learned_eeprom)) 14 1
   = eepromReadLong (3 + 8 * 14 + 4 * 1) sample_learned_eeprom
   ∧ phyIrType (setup globals_init sample_learned_eeprom) = sample_learned_eeprom 1%nat
   ∧ emuIrType (setup globals_init sample_learned_eeprom) = sample_learned_eeprom 2%nat
   ∧ setupMode (setup globals_init sample_learned_eeprom) = false
   ∧ loop sample_JVC sample_SAMSUNG sample_EEPROM_length
       (setup globals_init sample_learned_eeprom) sample_learned_eeprom [Some sample_A]
     = Some (setup globals_init sample_learned_eeprom, sample_learned_eeprom,
             dispatch sample_JVC sample_SAMSUNG
               (setup globals_init sample_learned_eeprom) (Some sample_A), []))
  ∧ (irKeyCodes (setup globals_init (λ _, 0xFF)) = irKeyCodes globals_init
     ∧ phyIrType (setup globals_init (λ _, 0xFF)) = phyIrType globals_init
     ∧ emuIrType (setup globals_init (λ _, 0xFF)) = emuIrType globals_init
     ∧ setupMode (setup globals_init (λ _, 0xFF)) = true
     ∧ loop sample_JVC sample_SAMSUNG sample_EEPROM_length
         (setup globals_init (λ _, 0xFF)) (λ _, 0xFF) [Some sample_A] = None
     ∧ ∃ st' (e' : eeprom),
         loop sample_JVC sample_SAMSUNG sample_EEPROM_length
           (setup globals_init (λ _, 0xFF)) (λ _, 0xFF)
           (None :: map Some sample_ps ++ None :: map Some sample_es
              ++ Some sample_A :: [])
         = Some (st', e', dispatch sample_JVC sample_SAMSUNG st' (Some sample_A), [])
         ∧ setupMode st' = false
         ∧ e' 0%nat = EEPROM_ID_VALUE
         ∧ ∀ k a b, sample_ps !! k = Some a → sample_es !! k = Some b →
                    get_code (irKeyCodes st') k 0 = value a
                    ∧ get_code (irKeyCodes st') k 1 = value b).
Proof.
  apply (setup_loads_iff_id_valid sample_JVC sample_SAMSUNG sample_EEPROM_length
           globals_init sample_learned_eeprom (λ _, 0xFF)
           sample_ps sample_es (Some sample_A) [] 14 1).
  - vm_compute. reflexivity.
  - vm_compute. discriminate.
  - reflexivity.
  - reflexivity.
  - vm_compute. lia.
  - lia.
  - reflexivity.
  - reflexivity.
  - exact fresh_keys_sample_ps.
  - exact fresh_keys_sample_es.
Defined.

Lemma eepromSetData_footprint_witness :
  (∀ j r k, (j < 15)%nat → (r < 2)%nat → (k < 4)%nat →
            eepromSetData 3 sample_codes 15 (λ _, 0) (3 + 8 * j + 4 * r + k)%nat
            = byte_of (get_code sample_codes j r) k)
  ∧ (∀ b, (b < 3 ∨ 3 + 8 * 15 ≤ b)%nat →
          eepromSetData 3 sample_codes 15 (λ _, 0) b = 0).
Proof.
  apply (eepromSetData_footprint 3 sample_codes 15 (λ _, 0)); [lia|simpl; lia].
Defined.

Lemma eepromGetData_rows_witness :
  (∀ j r, (r < 2)%nat →
          eepromGetData 3 (replicate 30 0) 15 (λ _, 0x5A) !! cell j r
          = if bool_decide (j < 15)%nat
            then Some (eepromReadLong (3 + 8 * j + 4 * r) (λ _, 0x5A))
            else replicate 30 0 !! cell j r)
  ∧ length (eepromGetData 3 (replicate 30 0) 15 (λ _, 0x5A)) = length (replicate 30 0).
Proof.
  apply (eepromGetData_rows 3 (replicate 30 0) 15 (λ _, 0x5A)).
  - lia.
  - simpl. lia.
  - simpl. lia.
Defined.

Lemma eepromSetData_GetData_witness :
  eepromSetData 3 (eepromGetData 3 (replicate 30 0) 15 (λ _, 0x5A)) 15 (λ _, 0x5A) 10%nat
  = 0x5A.
Proof.
  apply (eepromSetData_GetData 3 (replicate 30 0) 15 (λ _, 0x5A) 10).
  - lia.
  - simpl. lia.
  - intros b Hb. lia.
  - simpl. lia.
Defined.
